(** * lnhistoryclient.parser.common: binary field decoders

    A shallow embedding of [lnhistoryclient/parser/common.py] and of the
    parts of the Python runtime it calls ([io.BytesIO], [struct.unpack],
    [int.from_bytes], [bytes.decode], [bytes.hex], [str.strip],
    [base64.b32encode], [ipaddress], the [punycode] codec), followed by
    the properties of the decoders.

    Conventions.
    - A Python [int] is a [Z]; a [bytes] value is a [list byte].
    - A Python [str] that may hold any code point is a [pystr], a list of
      code points; a [str] the code only ever fills with ASCII text
      (addresses, short channel ids, exception messages) is a [string].
    - A call that may raise returns [result A]: [Raise e] or [Return a].
    - A [BytesIO] is an open in-memory stream: its buffer and its
      position.  Closing a stream is not modelled. *)

From Stdlib Require Import ZArith List Ascii String DecimalString Lia.
From Stdlib.Strings Require Import Byte.
From Stdlib Require DecimalPos DecimalZ.
From stdpp Require Import base decidable list strings gmap.
Import ListNotations.

Local Open Scope string_scope.
Local Open Scope list_scope.
Local Open Scope Z_scope.

(** ** Exceptions and results *)

Inductive exn : Type :=
| ValueError (msg : string)
| UnicodeDecodeError (codec : string)
| UnicodeError (msg : string)
| StructError (msg : string).

Inductive result (A : Type) : Type :=
| Raise (e : exn)
| Return (a : A).
Arguments Raise {A} e.
Arguments Return {A} a.

Definition is_raise {A} (r : result A) : bool :=
  match r with Raise _ => true | Return _ => false end.

Definition rbind {A B} (r : result A) (k : A -> result B) : result B :=
  match r with Raise e => Raise e | Return a => k a end.

(** [str(e)] as used in a formatted message.  The text of a
    [UnicodeDecodeError] is abbreviated to its codec; the messages of the
    other exceptions are carried in full. *)
Definition exn_str (e : exn) : string :=
  match e with
  | ValueError msg => msg
  | UnicodeDecodeError codec => "'" +:+ codec +:+ "' codec can't decode bytes"
  | UnicodeError msg => msg
  | StructError msg => msg
  end.

(** ** Integers, bytes and text *)

Definition byte_val (b : byte) : Z := Z.of_N (Byte.to_N b).

(** [str(n)] for an int: decimal digits, a leading minus sign for negatives. *)
Definition str_of_int (n : Z) : string := NilZero.string_of_int (Z.to_int n).

(** [len(x)] as a Python int. *)
Definition len {A} (l : list A) : Z := Z.of_nat (length l).

(** [data[:n]] and [data[n:]] for a constant [n >= 0]. *)
Definition slice_to {A} (n : nat) (data : list A) : list A := firstn n data.
Definition slice_from {A} (n : nat) (data : list A) : list A := skipn n data.

(** [int.from_bytes(data, byteorder="big")]. *)
Definition int_from_bytes_big (data : list byte) : Z :=
  fold_left (fun acc b => acc * 256 + byte_val b) data 0.

(** [struct.unpack(">H", data)[0]] (and ["!H"], network order, the same):
    [struct.error] unless [data] has exactly two bytes. *)
Definition unpack_H (data : list byte) : result Z :=
  match data with
  | [hi; lo] => Return (Z.lor (Z.shiftl (byte_val hi) 8) (byte_val lo))
  | _ => Raise (StructError "unpack requires a buffer of 2 bytes")
  end.

(** [struct.unpack("!B", data)[0]]. *)
Definition unpack_B (data : list byte) : result Z :=
  match data with
  | [b] => Return (byte_val b)
  | _ => Raise (StructError "unpack requires a buffer of 1 bytes")
  end.

(** ** Short channel ids *)

(** [get_scid_from_int]. *)
Definition get_scid_from_int (scid_int : Z) : string :=
  let block := Z.land (Z.shiftr scid_int 40) 0xFFFFFF in
  let txindex := Z.land (Z.shiftr scid_int 16) 0xFFFFFF in
  let output := Z.land scid_int 0xFFFF in
  str_of_int block +:+ "x" +:+ str_of_int txindex +:+ "x" +:+ str_of_int output.

(** ** Message types

    The two known-type sets of [lnhistoryclient/constants.py] are
    configuration: they are parameters of this section. *)

Section MessageTypes.

Variables LIGHTNING_TYPES CORE_LIGHTNING_TYPES : gset Z.

(** [get_message_type_by_raw_hex]. *)
Definition get_message_type_by_raw_hex (raw_hex : list byte) : result (option Z) :=
  if len raw_hex <? 2 then
    Raise (ValueError
      "Insufficient data: Expected at least 2 bytes to extract message type.")
  else
    rbind (unpack_H (slice_to 2 raw_hex)) (fun msg_type =>
      if bool_decide (msg_type ∈ LIGHTNING_TYPES)
         || bool_decide (msg_type ∈ CORE_LIGHTNING_TYPES)
      then Return (Some msg_type)
      else Return None).

(** The [try] block of [strip_known_message_type]. *)
Definition strip_known_message_type_try (data : list byte) : result (list byte) :=
  if len data <? 2 then
    Raise (ValueError "Input data is too short to contain a message type prefix.")
  else
    let known_types := LIGHTNING_TYPES ∪ CORE_LIGHTNING_TYPES in
    let prefix := int_from_bytes_big (slice_to 2 data) in
    if bool_decide (prefix ∈ known_types) then Return (slice_from 2 data)
    else Return data.

(** [strip_known_message_type]: every exception of the block is raised
    again as a [ValueError] that quotes it. *)
Definition strip_known_message_type (data : list byte) : result (list byte) :=
  match strip_known_message_type_try data with
  | Return r => Return r
  | Raise e =>
      Raise (ValueError ("Failed to strip known message type: " +:+ exn_str e))
  end.

(** A buffer starts with a known type tag when it has two bytes and they
    spell, big-endian, a member of either set. *)
Definition starts_with_known_type (data : list byte) : Prop :=
  2 <= len data /\
  (int_from_bytes_big (slice_to 2 data) ∈ LIGHTNING_TYPES
   \/ int_from_bytes_big (slice_to 2 data) ∈ CORE_LIGHTNING_TYPES).

End MessageTypes.

(** The gossip message types of BOLT #7 (channel_announcement,
    node_announcement, channel_update), used as a sample registry. *)
Definition bolt7_gossip_types : gset Z := {[ 256; 257; 258 ]}.
Definition no_types : gset Z := ∅.

(** ** The byte stream: [io.BytesIO] *)

Record BytesIO : Type := mkBytesIO { buffer : list byte; position : nat }.

(** [b.tell()]. *)
Definition tell (b : BytesIO) : nat := position b.

(** [b.seek(pos)] for a position obtained from [tell]. *)
Definition seek (b : BytesIO) (pos : nat) : BytesIO :=
  {| buffer := buffer b; position := pos |}.

(** Bytes between the position and the end of the buffer (none when the
    position is past the end). *)
Definition remaining (b : BytesIO) : Z := Z.max 0 (len (buffer b) - Z.of_nat (position b)).

(** [b.read(size)]: a negative size, or one larger than what is left,
    is cut down to what is left; the position moves past the bytes
    returned. *)
Definition read (b : BytesIO) (size : Z) : list byte * BytesIO :=
  let n := len (buffer b) - Z.of_nat (position b) in
  let size := if (size <? 0) || (n <? size)
              then (if n <? 0 then 0 else n) else size in
  let k := Z.to_nat size in
  (firstn k (skipn (position b) (buffer b)),
   {| buffer := buffer b; position := (position b + k)%nat |}).

(** Computations on a stream that may raise.  An exception leaves the
    stream as it was when the exception was raised. *)
Definition M (A : Type) : Type := BytesIO -> result A * BytesIO.

Definition ret {A} (a : A) : M A := fun b => (Return a, b).

Definition bind {A B} (m : M A) (k : A -> M B) : M B :=
  fun b => match m b with
           | (Return a, b') => k a b'
           | (Raise e, b') => (Raise e, b')
           end.

Definition lift {A} (r : result A) : M A := fun b => (r, b).

Notation "x <- m ;; k" := (bind m (fun x => k))
  (at level 100, m at next level, right associativity).

(** [read_exact]. *)
Definition read_exact (n : Z) : M (list byte) :=
  fun b =>
    let (data, b') := read b n in
    if negb (len data =? n) then
      (Raise (ValueError ("Expected " +:+ str_of_int n +:+ " bytes, got "
                          +:+ str_of_int (len data))), b')
    else (Return data, b').

(** ** Text helpers of the Python runtime *)

(** [x.strip(chars)]: leading, then trailing, members of [chars] go. *)
Fixpoint lstrip {A} (p : A -> bool) (l : list A) : list A :=
  match l with
  | [] => []
  | a :: l' => if p a then lstrip p l' else l
  end.

Definition rstrip {A} (p : A -> bool) (l : list A) : list A :=
  rev (lstrip p (rev l)).

Definition strip {A} (p : A -> bool) (l : list A) : list A :=
  rstrip p (lstrip p l).

Definition str_strip (c : ascii) (s : string) : string :=
  string_of_list_ascii (strip (Ascii.eqb c) (list_ascii_of_string s)).

(** [s.lower()] on ASCII text. *)
Definition ascii_lower (c : ascii) : ascii :=
  let n := N_of_ascii c in
  if ((65 <=? n) && (n <=? 90))%N then ascii_of_N (n + 32) else c.

Fixpoint str_lower (s : string) : string :=
  match s with
  | EmptyString => EmptyString
  | String c s' => String (ascii_lower c) (str_lower s')
  end.

(** [sep.join(parts)]. *)
Fixpoint str_join (sep : string) (parts : list string) : string :=
  match parts with
  | [] => ""
  | [p] => p
  | p :: ps => p +:+ sep +:+ str_join sep ps
  end.

(** [data.decode("ascii")]. *)
Definition is_ascii_byte (b : byte) : bool := byte_val b <? 128.

Definition decode_ascii (data : list byte) : result string :=
  if forallb is_ascii_byte data
  then Return (string_of_list_ascii (map ascii_of_byte data))
  else Raise (UnicodeDecodeError "ascii").

(** Lowercase hexadecimal digits. *)
Definition hex_digit (d : Z) : ascii :=
  ascii_of_N (Z.to_N (if d <? 10 then 48 + d else 87 + d)).

(** [data.hex()]: two digits for each byte. *)
Fixpoint bytes_hex (data : list byte) : string :=
  match data with
  | [] => ""
  | b :: data' =>
      String (hex_digit (byte_val b / 16))
        (String (hex_digit (byte_val b mod 16)) (bytes_hex data'))
  end.

(** ['%x' % v] for a 16-bit [v]: no leading zeros. *)
Definition hextet_str (v : Z) : string :=
  string_of_list_ascii
    (lstrip (Ascii.eqb "0")
       (map hex_digit [v / 4096 mod 16; v / 256 mod 16; v / 16 mod 16])
     ++ [hex_digit (v mod 16)]).

(** *** [base64.b32encode] and [to_base_32] *)

Definition b32_char (v : Z) : ascii :=
  ascii_of_N (Z.to_N (if v <? 26 then 65 + v else 24 + v)).

(** The eight characters of one five-byte quantum. *)
Definition b32_quantum (b0 b1 b2 b3 b4 : byte) : list ascii :=
  let c := int_from_bytes_big [b0; b1; b2; b3; b4] in
  map (fun i => b32_char (Z.land (Z.shiftr c (35 - 5 * i)) 31))
      [0; 1; 2; 3; 4; 5; 6; 7].

Definition pad_quantum (keep : nat) (q : list ascii) : list ascii :=
  firstn keep q ++ repeat "="%char (8 - keep).

Fixpoint b32encode_chars (s : list byte) : list ascii :=
  match s with
  | [] => []
  | [b0] => pad_quantum 2 (b32_quantum b0 x00 x00 x00 x00)
  | [b0; b1] => pad_quantum 4 (b32_quantum b0 b1 x00 x00 x00)
  | [b0; b1; b2] => pad_quantum 5 (b32_quantum b0 b1 b2 x00 x00)
  | [b0; b1; b2; b3] => pad_quantum 7 (b32_quantum b0 b1 b2 b3 x00)
  | b0 :: b1 :: b2 :: b3 :: b4 :: rest =>
      b32_quantum b0 b1 b2 b3 b4 ++ b32encode_chars rest
  end.

Definition b32encode (s : list byte) : string :=
  string_of_list_ascii (b32encode_chars s).

(** [to_base_32]. *)
Definition to_base_32 (addr : list byte) : string :=
  str_lower (str_strip "="%char (b32encode addr)).

(** *** [ipaddress] *)

(** [str(ipaddress.IPv4Address(raw))] for packed bytes;
    [AddressValueError], a [ValueError], on any other length (its text
    is abbreviated). *)
Definition IPv4Address_str (raw : list byte) : result string :=
  if (length raw =? 4)%nat
  then Return (str_join "." (map (fun b => str_of_int (byte_val b)) raw))
  else Raise (ValueError "not permitted as an IPv4 address").

Fixpoint hextets_of (raw : list byte) : list string :=
  match raw with
  | hi :: lo :: rest => hextet_str (byte_val hi * 256 + byte_val lo) :: hextets_of rest
  | _ => []
  end.

(** [_compress_hextets]: the leftmost longest run of two or more ["0"]
    hextets is replaced by an empty string. *)
Record run_state : Type := mkRun {
  best_doublecolon_start : Z; best_doublecolon_len : Z;
  doublecolon_start : Z; doublecolon_len : Z }.

Definition run_step (st : run_state) (ih : Z * string) : run_state :=
  let (index, hextet) := ih in
  if String.eqb hextet "0" then
    let dlen := doublecolon_len st + 1 in
    let dstart := if doublecolon_start st =? -1 then index else doublecolon_start st in
    if best_doublecolon_len st <? dlen
    then mkRun dstart dlen dstart dlen
    else mkRun (best_doublecolon_start st) (best_doublecolon_len st) dstart dlen
  else mkRun (best_doublecolon_start st) (best_doublecolon_len st) (-1) 0.

Definition enumerate {A} (l : list A) : list (Z * A) :=
  combine (seqZ 0 (len l)) l.

Definition compress_hextets (hextets : list string) : list string :=
  let st := fold_left run_step (enumerate hextets) (mkRun (-1) 0 (-1) 0) in
  if 1 <? best_doublecolon_len st then
    let best_start := best_doublecolon_start st in
    let best_end := best_start + best_doublecolon_len st in
    let hextets1 := if best_end =? len hextets then hextets ++ [""] else hextets in
    let hextets2 := firstn (Z.to_nat best_start) hextets1 ++ [""]
                    ++ skipn (Z.to_nat best_end) hextets1 in
    if best_start =? 0 then "" :: hextets2 else hextets2
  else hextets.

(** [str(ipaddress.IPv6Address(raw))] for packed bytes. *)
Definition IPv6Address_str (raw : list byte) : result string :=
  if (length raw =? 16)%nat
  then Return (str_join ":" (compress_hextets (hextets_of raw)))
  else Raise (ValueError "not permitted as an IPv6 address").

(** ** Addresses *)

(** The classes [AddressType] and [Address] of [lnhistoryclient/model]
    are declared outside the decoder module.  The records carry the
    fields that [model/types.py] gives their dictionaries
    ([AddressTypeDict]: [id], [name]; [AddressDict]: [typ], [addr],
    [port]). *)
Record AddressType : Type := mkAddressType { id : Z; name : string }.

Record Address : Type := mkAddress { typ : AddressType; addr : string; port : Z }.

(** Modelled from the spec: the name that the missing class
    [AddressType] gives a type id.  The spec names five kinds (IPv4,
    IPv6, TorV2, TorV3, DNS). *)
Definition AddressType_name (type_id : Z) : string :=
  if type_id =? 1 then "IPv4"
  else if type_id =? 2 then "IPv6"
  else if type_id =? 3 then "TorV2"
  else if type_id =? 4 then "TorV3"
  else if type_id =? 5 then "DNS"
  else "Unknown".

(** Modelled from the spec: the constructor [AddressType(type_id)] of the
    missing class.  The spec treats a type byte outside 1..5 as an
    unknown variant that is not an error, and [parse_address] has a
    branch of its own for it after the constructor has run: the
    constructor never raises. *)
Definition AddressType_of_id (type_id : Z) : result AddressType :=
  Return (mkAddressType type_id (AddressType_name type_id)).

(** What a call of [parse_address] leaves behind: the value returned, the
    stream, and the exception reported on standard output, if any. *)
Record outcome : Type := mkOutcome {
  returned : option Address;
  stream : BytesIO;
  reported : option exn }.

Section AddressDecoder.

(** The constructor of the class [AddressType], which may raise. *)
Variable new_AddressType : Z -> result AddressType.

(** The [try] block of [parse_address]. *)
Definition parse_address_try : M (option Address) :=
  type_byte <- read_exact 1 ;;
  type_id <- lift (unpack_B type_byte) ;;
  a_typ <- lift (new_AddressType type_id) ;;
  if type_id =? 1 then
    raw <- read_exact 4 ;;
    a_addr <- lift (IPv4Address_str raw) ;;
    p <- read_exact 2 ;;
    a_port <- lift (unpack_H p) ;;
    ret (Some (mkAddress a_typ a_addr a_port))
  else if type_id =? 2 then
    raw <- read_exact 16 ;;
    ip <- lift (IPv6Address_str raw) ;;
    p <- read_exact 2 ;;
    a_port <- lift (unpack_H p) ;;
    ret (Some (mkAddress a_typ ("[" +:+ ip +:+ "]") a_port))
  else if type_id =? 3 then
    raw <- read_exact 10 ;;
    p <- read_exact 2 ;;
    a_port <- lift (unpack_H p) ;;
    ret (Some (mkAddress a_typ (to_base_32 raw +:+ ".onion") a_port))
  else if type_id =? 4 then
    raw <- read_exact 35 ;;
    p <- read_exact 2 ;;
    a_port <- lift (unpack_H p) ;;
    ret (Some (mkAddress a_typ (to_base_32 raw +:+ ".onion") a_port))
  else if type_id =? 5 then
    l <- read_exact 1 ;;
    hostname_len <- lift (unpack_B l) ;;
    h <- read_exact hostname_len ;;
    hostname <- lift (decode_ascii h) ;;
    p <- read_exact 2 ;;
    a_port <- lift (unpack_H p) ;;
    ret (Some (mkAddress a_typ hostname a_port))
  else
    ret None.

(** [parse_address]: the position is taken before the block; only the
    exception handler seeks back to it. *)
Definition parse_address (b : BytesIO) : outcome :=
  let pos_before := tell b in
  match parse_address_try b with
  | (Return a, b') => mkOutcome a b' None
  | (Raise e, b') => mkOutcome None (seek b' pos_before) (Some e)
  end.

End AddressDecoder.

(** ** Aliases *)

(** A [str] as its code points. *)
Definition pystr : Type := list Z.

Definition pystr_of_string (s : string) : pystr :=
  map (fun c => Z.of_N (N_of_ascii c)) (list_ascii_of_string s).

(** *** [data.decode("utf-8")]

    The strict decoder: shortest forms only, no surrogates, nothing
    above U+10FFFF. *)
Definition between (lo hi : Z) (b : byte) : bool :=
  (lo <=? byte_val b) && (byte_val b <=? hi).

Definition low6 (b : byte) : Z := Z.land (byte_val b) 0x3F.

Definition utf8_error {A} : result A := Raise (UnicodeDecodeError "utf-8").

Fixpoint utf8_decode (data : list byte) : result pystr :=
  match data with
  | [] => Return []
  | b0 :: rest =>
      let v0 := byte_val b0 in
      if v0 <? 0x80 then
        rbind (utf8_decode rest) (fun s => Return (v0 :: s))
      else if between 0xC2 0xDF b0 then
        match rest with
        | b1 :: rest1 =>
            if between 0x80 0xBF b1 then
              rbind (utf8_decode rest1) (fun s =>
                Return (Z.lor (Z.shiftl (Z.land v0 0x1F) 6) (low6 b1) :: s))
            else utf8_error
        | _ => utf8_error
        end
      else if between 0xE0 0xEF b0 then
        match rest with
        | b1 :: b2 :: rest2 =>
            if between (if v0 =? 0xE0 then 0xA0 else 0x80)
                       (if v0 =? 0xED then 0x9F else 0xBF) b1
               && between 0x80 0xBF b2 then
              rbind (utf8_decode rest2) (fun s =>
                Return (Z.lor (Z.shiftl (Z.land v0 0x0F) 12)
                          (Z.lor (Z.shiftl (low6 b1) 6) (low6 b2)) :: s))
            else utf8_error
        | _ => utf8_error
        end
      else if between 0xF0 0xF4 b0 then
        match rest with
        | b1 :: b2 :: b3 :: rest3 =>
            if between (if v0 =? 0xF0 then 0x90 else 0x80)
                       (if v0 =? 0xF4 then 0x8F else 0xBF) b1
               && between 0x80 0xBF b2 && between 0x80 0xBF b3 then
              rbind (utf8_decode rest3) (fun s =>
                Return (Z.lor (Z.shiftl (Z.land v0 0x07) 18)
                          (Z.lor (Z.shiftl (low6 b1) 12)
                             (Z.lor (Z.shiftl (low6 b2) 6) (low6 b3))) :: s))
            else utf8_error
        | _ => utf8_error
        end
      else utf8_error
  end.

(** *** The [punycode] codec ([encodings/punycode.py], strict errors)

    The loops of the codec run on fuel; [None] stands for fuel that ran
    out, and the termination lemmas below show that it never does. *)

(** [T(j, bias)]. *)
Definition T (j bias : Z) : Z :=
  let res := 36 * (j + 1) - bias in
  if res <? 1 then 1 else if 26 <? res then 26 else res.

(** The [while delta > 455] loop of [adapt]. *)
Fixpoint adapt_loop (fuel : positive) (delta divisions : Z) : option (Z * Z) :=
  if 455 <? delta then
    match fuel with
    | xH => None
    | xO fuel' | xI fuel' => adapt_loop fuel' (delta / 35) (divisions + 36)
    end
  else Some (delta, divisions).

(** [adapt(delta, first, numchars)]. *)
Definition adapt (delta : Z) (first : bool) (numchars : Z) : option Z :=
  let delta := if first then delta / 700 else delta / 2 in
  let delta := delta + delta / numchars in
  match adapt_loop (Z.to_pos delta) delta 0 with
  | Some (delta, divisions) => Some (divisions + (36 * delta / (delta + 38)))
  | None => None
  end.

(** [decode_generalized_number], reading from [ext], the part of
    [extended] from index [extpos] on; the part left over is returned
    with the new index and the number. *)
Fixpoint decode_generalized_number (ext : list Z) (extpos bias res w j : Z)
  : result (list Z * Z * Z) :=
  match ext with
  | [] => Raise (UnicodeError "incomplete punicode string")
  | char :: ext' =>
      let extpos := extpos + 1 in
      rbind (if (0x41 <=? char) && (char <=? 0x5A) then Return (char - 0x41)
             else if (0x30 <=? char) && (char <=? 0x39) then Return (char - 22)
             else Raise (UnicodeError "Invalid extended code point"))
        (fun digit =>
           let t := T j bias in
           let res := res + digit * w in
           if digit <? t then Return (ext', extpos, res)
           else decode_generalized_number ext' extpos bias res (w * (36 - t)) (j + 1))
  end.

(** The loop of [insertion_sort]. *)
Fixpoint insertion_loop (fuel : nat) (base : pystr) (ext : list Z)
    (extpos char pos bias : Z) : option (result pystr) :=
  match ext with
  | [] => Some (Return base)
  | _ :: _ =>
      match fuel with
      | O => None
      | S fuel' =>
          match decode_generalized_number ext extpos bias 0 1 0 with
          | Raise e => Some (Raise e)
          | Return (ext', newpos, delta) =>
              let pos := pos + (delta + 1) in
              let char := char + pos / (len base + 1) in
              if 0x10FFFF <? char then Some (Raise (UnicodeError "Invalid character"))
              else
                let pos := pos mod (len base + 1) in
                let base := firstn (Z.to_nat pos) base ++ [char]
                            ++ skipn (Z.to_nat pos) base in
                match adapt delta (extpos =? 0) (len base) with
                | None => None
                | Some bias => insertion_loop fuel' base ext' newpos char pos bias
                end
          end
      end
  end.

(** [insertion_sort(base, extended, "strict")]. *)
Definition insertion_sort (base : pystr) (extended : list Z) : option (result pystr) :=
  insertion_loop (length extended) base extended 0 0x80 (-1) 72.

(** [text.rfind(c)], [None] for -1. *)
Fixpoint rfind (c : byte) (text : list byte) : option nat :=
  match text with
  | [] => None
  | b :: text' =>
      match rfind c text' with
      | Some i => Some (S i)
      | None => if Byte.eqb b c then Some O else None
      end
  end.

(** [s.upper()] on ASCII text. *)
Definition ascii_upper (c : Z) : Z :=
  if (97 <=? c) && (c <=? 122) then c - 32 else c.

(** [punycode_decode(text, "strict")]. *)
Definition punycode_decode (text : list byte) : option (result pystr) :=
  match rfind x2d text with
  | None =>
      match decode_ascii text with
      | Raise e => Some (Raise e)
      | Return extended => insertion_sort [] (map ascii_upper (pystr_of_string extended))
      end
  | Some pos =>
      match decode_ascii (firstn pos text) with
      | Raise e => Some (Raise e)
      | Return base =>
          match decode_ascii (skipn (pos + 1) text) with
          | Raise e => Some (Raise e)
          | Return extended =>
              insertion_sort (pystr_of_string base) (map ascii_upper (pystr_of_string extended))
          end
      end
  end.

(** *** [decode_alias]

    The outer handler takes [UnicodeDecodeError] only, the inner one
    every exception. *)
Definition decode_alias (alias_bytes : list byte) : option (result pystr) :=
  match utf8_decode alias_bytes with
  | Return s => Some (Return (strip (Z.eqb 0) s))
  | Raise (UnicodeDecodeError _) =>
      let cleaned := strip (Byte.eqb x00) alias_bytes in
      match punycode_decode cleaned with
      | None => None
      | Some (Return s) => Some (Return s)
      | Some (Raise _) => Some (Return (pystr_of_string (bytes_hex alias_bytes)))
      end
  | Raise e => Some (Raise e)
  end.

(** ** Auxiliary notions used by the statements *)

(** A lowercase hexadecimal digit: ['0'..'9'] or ['a'..'f']. *)
Definition is_lower_hex (c : Z) : bool :=
  ((48 <=? c) && (c <=? 57)) || ((97 <=? c) && (c <=? 102)).

(** The value of a lowercase hexadecimal digit. *)
Definition hex_value (c : Z) : Z := if c <=? 57 then c - 48 else c - 87.

(** Read a hexadecimal text back, two digits for each byte. *)
Fixpoint unhex (s : pystr) : list Z :=
  match s with
  | c1 :: c2 :: s' => (16 * hex_value c1 + hex_value c2) :: unhex s'
  | _ => []
  end.

(** No computation of the decoder writes to the buffer. *)
Definition keeps_buffer {A} (m : M A) : Prop :=
  forall b, buffer (snd (m b)) = buffer b.


(** The idempotence of the stripper as the specification words it: on a
    buffer of two bytes or more, stripping the stripped result again,
    when that result does not start with a known type tag, returns it
    unchanged and does not raise. *)
Definition strip_idempotent_claim : Prop :=
  forall (L C : gset Z) (data r : list byte),
    2 <= len data ->
    strip_known_message_type L C data = Return r ->
    ~ starts_with_known_type L C r ->
    strip_known_message_type L C r = Return r.

(** The UTF-8 path as the specification words it: trailing NULs only
    are stripped from the decoded text. *)
Definition decode_alias_trailing_claim : Prop :=
  forall (alias_bytes : list byte) (s : pystr),
    length alias_bytes = 32%nat ->
    utf8_decode alias_bytes = Return s ->
    decode_alias alias_bytes = Some (Return (rstrip (Z.eqb 0) s)).

(** The stream [b] has the bytes [l] from its position to its end. *)
Definition stream_at (b : BytesIO) (l : list byte) : Prop :=
  skipn (position b) (buffer b) = l.

(** The stream [b] moved [k] bytes forward. *)
Definition advance (b : BytesIO) (k : nat) : BytesIO :=
  mkBytesIO (buffer b) (position b + k).

(** The number of bytes of the address record that starts [l], as the
    branches of [parse_address] read them: the type byte, the payload of
    its kind and the port; for a DNS record the payload is a length byte
    and as many bytes as it says.  No length for a type byte outside
    1..5. *)
Definition record_length (l : list byte) : option nat :=
  match l with
  | [] => None
  | t :: rest =>
      if byte_val t =? 1 then Some 7%nat
      else if byte_val t =? 2 then Some 19%nat
      else if byte_val t =? 3 then Some 13%nat
      else if byte_val t =? 4 then Some 38%nat
      else if byte_val t =? 5 then
        match rest with
        | n :: _ => Some (4 + Z.to_nat (byte_val n))%nat
        | [] => Some 4%nat
        end
      else None
  end.

(** The characters of the lowercase Base32 alphabet: ['a'..'z'] and
    ['2'..'7']. *)
Definition is_b32_lower (c : ascii) : bool :=
  let n := N_of_ascii c in
  (((97 <=? n) && (n <=? 122)) || ((50 <=? n) && (n <=? 55)))%N.

(** The characters of a decimal numeral. *)
Definition is_digit (c : ascii) : bool :=
  let n := N_of_ascii c in ((48 <=? n) && (n <=? 57))%N.

(** * Properties *)

(** ** The model against the Python runtime: sample evaluations *)

Example get_scid_from_int_zero : get_scid_from_int 0 = "0x0x0".
Proof. reflexivity. Qed.

Example get_scid_from_int_max :
  get_scid_from_int (2 ^ 64 - 1) = "16777215x16777215x65535".
Proof. reflexivity. Qed.

Example get_scid_from_int_sample :
  get_scid_from_int 0x0a2b3c0000010002 = "666428x1x2".
Proof. reflexivity. Qed.

Example detect_known :
  get_message_type_by_raw_hex bolt7_gossip_types no_types [x01; x01; xaa]
  = Return (Some 257).
Proof. vm_compute. reflexivity. Qed.

Example detect_unknown :
  get_message_type_by_raw_hex bolt7_gossip_types no_types [x00; x10]
  = Return None.
Proof. vm_compute. reflexivity. Qed.

Example strip_known :
  strip_known_message_type bolt7_gossip_types no_types [x01; x01; xaa]
  = Return [xaa].
Proof. vm_compute. reflexivity. Qed.

Example read_exact_ok :
  read_exact 2 (mkBytesIO [x01; x02; x03] 1) = (Return [x02; x03], mkBytesIO [x01; x02; x03] 3).
Proof. reflexivity. Qed.

Example read_exact_short :
  read_exact 4 (mkBytesIO [x01; x02; x03] 1)
  = (Raise (ValueError "Expected 4 bytes, got 2"), mkBytesIO [x01; x02; x03] 3).
Proof. reflexivity. Qed.

Example b32encode_partial : b32encode [x61; x62] = "MFRA====".
Proof. reflexivity. Qed.

Example to_base_32_ten :
  to_base_32 [x00; x01; x02; x03; x04; x05; x06; x07; x08; x09]
  = "aaaqeayeaudaocaj".
Proof. reflexivity. Qed.

Example IPv4Address_str_loopback :
  IPv4Address_str [x7f; x00; x00; x01] = Return "127.0.0.1".
Proof. reflexivity. Qed.

Example IPv6Address_str_unspecified :
  IPv6Address_str (repeat x00 16) = Return "::".
Proof. vm_compute. reflexivity. Qed.

Example IPv6Address_str_loopback :
  IPv6Address_str (repeat x00 15 ++ [x01]) = Return "::1".
Proof. vm_compute. reflexivity. Qed.

Example IPv6Address_str_prefix :
  IPv6Address_str ([x20; x01; x0d; xb8] ++ repeat x00 12) = Return "2001:db8::".
Proof. vm_compute. reflexivity. Qed.

Example IPv6Address_str_leftmost :
  IPv6Address_str [x00; x01; x00; x00; x00; x00; x00; x01;
                   x00; x00; x00; x00; x00; x00; x00; x01]
  = Return "1:0:0:1::1".
Proof. vm_compute. reflexivity. Qed.

Example IPv6Address_str_single_zeros :
  IPv6Address_str [x00; x01; x00; x00; x00; x02; x00; x00;
                   x00; x03; x00; x00; x00; x04; x00; x00]
  = Return "1:0:2:0:3:0:4:0".
Proof. vm_compute. reflexivity. Qed.

Example IPv6Address_str_mapped :
  IPv6Address_str (repeat x00 10 ++ [xff; xff; x01; x02; x03; x04])
  = Return "::ffff:102:304".
Proof. vm_compute. reflexivity. Qed.

Example parse_address_dns :
  parse_address AddressType_of_id
    (mkBytesIO [x05; x03; x61; x2e; x62; x26; x07; xff] 0)
  = mkOutcome (Some (mkAddress (mkAddressType 5 "DNS") "a.b" 9735))
              (mkBytesIO [x05; x03; x61; x2e; x62; x26; x07; xff] 7) None.
Proof. vm_compute. reflexivity. Qed.

Example parse_address_truncated :
  parse_address AddressType_of_id (mkBytesIO [xaa; x01; x7f; x00] 1)
  = mkOutcome None (mkBytesIO [xaa; x01; x7f; x00] 1)
              (Some (ValueError "Expected 4 bytes, got 2")).
Proof. vm_compute. reflexivity. Qed.

Example parse_address_bad_hostname :
  parse_address AddressType_of_id (mkBytesIO [x05; x01; x80; x00; x50] 0)
  = mkOutcome None (mkBytesIO [x05; x01; x80; x00; x50] 0)
              (Some (UnicodeDecodeError "ascii")).
Proof. vm_compute. reflexivity. Qed.

Example utf8_decode_ascii : utf8_decode [x61; x00] = Return [97; 0].
Proof. reflexivity. Qed.

Example utf8_decode_euro : utf8_decode [xe2; x82; xac] = Return [0x20AC].
Proof. reflexivity. Qed.

Example utf8_decode_astral : utf8_decode [xf0; x9f; x98; x80] = Return [0x1F600].
Proof. reflexivity. Qed.

Example utf8_decode_overlong : utf8_decode [xc0; x80] = utf8_error.
Proof. reflexivity. Qed.

Example utf8_decode_surrogate : utf8_decode [xed; xa0; x80] = utf8_error.
Proof. reflexivity. Qed.

Example utf8_decode_cut : utf8_decode [x61; xe2; x82] = utf8_error.
Proof. reflexivity. Qed.

Example punycode_decode_buecher :
  punycode_decode [x62; x63; x68; x65; x72; x2d; x6b; x76; x61]
  = Some (Return (pystr_of_string "b" ++ [0xFC] ++ pystr_of_string "cher")).
Proof. vm_compute. reflexivity. Qed.

Example punycode_decode_muenchen :
  punycode_decode [x4d; x6e; x63; x68; x65; x6e; x2d; x33; x79; x61]
  = Some (Return (pystr_of_string "M" ++ [0xFC] ++ pystr_of_string "nchen")).
Proof. vm_compute. reflexivity. Qed.

Example punycode_decode_plain :
  punycode_decode [x61; x62; x63] = Some (Return [0x82; 0x81; 0x80]).
Proof. vm_compute. reflexivity. Qed.

Example punycode_decode_incomplete :
  punycode_decode [x7a; x7a; x7a; x7a; x7a; x7a]
  = Some (Raise (UnicodeError "incomplete punicode string")).
Proof. vm_compute. reflexivity. Qed.

Example punycode_decode_high_byte :
  punycode_decode [x61; x62; x63; x2d; xff] = Some (Raise (UnicodeDecodeError "ascii")).
Proof. vm_compute. reflexivity. Qed.

(** ** Bytes and big-endian integers *)

Lemma byte_val_range (b : byte) : 0 <= byte_val b < 256.
Proof.
  unfold byte_val. pose proof (Byte.to_N_bounded b). lia.
Qed.

Lemma len_nonneg {A} (l : list A) : 0 <= len l.
Proof. unfold len. lia. Qed.

Lemma len_cons {A} (a : A) (l : list A) : len (a :: l) = len l + 1.
Proof. unfold len. simpl length. lia. Qed.

Lemma len_app {A} (l k : list A) : len (l ++ k) = len l + len k.
Proof. unfold len. rewrite length_app. lia. Qed.

(** A buffer of two bytes or more starts with two bytes. *)
Lemma two_bytes_inv {A} (data : list A) :
  2 <= len data -> exists hi lo rest, data = hi :: lo :: rest.
Proof.
  destruct data as [|hi [|lo rest]]; unfold len; simpl; intros H; try lia.
  eauto.
Qed.

(** Or-ing a byte under a byte shifted by eight bits adds them. *)
Lemma shift_or_bytes (hi lo : Z) :
  0 <= hi -> 0 <= lo < 256 -> Z.lor (Z.shiftl hi 8) lo = 256 * hi + lo.
Proof.
  intros Hhi Hlo.
  rewrite <- Z.add_nocarry_lor.
  - rewrite Z.shiftl_mul_pow2 by lia. change (2 ^ 8) with 256. lia.
  - apply Z.bits_inj'. intros n Hn. rewrite Z.land_spec, Z.bits_0.
    destruct (Z.ltb_spec n 8).
    + rewrite Z.shiftl_spec_low by lia. reflexivity.
    + replace (Z.testbit lo n) with false; [apply andb_false_r|].
      symmetry. apply Z.bits_above_log2; [lia|].
      destruct (Z.eq_dec lo 0) as [->|]; [simpl; lia|].
      apply Z.lt_le_trans with 8; [|lia].
      apply Z.log2_lt_pow2; lia.
Qed.

Lemma unpack_H_two (hi lo : byte) :
  unpack_H [hi; lo] = Return (256 * byte_val hi + byte_val lo).
Proof.
  unfold unpack_H. f_equal.
  apply shift_or_bytes; pose proof (byte_val_range hi); pose proof (byte_val_range lo); lia.
Qed.

Lemma int_from_bytes_big_two (hi lo : byte) :
  int_from_bytes_big [hi; lo] = 256 * byte_val hi + byte_val lo.
Proof. unfold int_from_bytes_big. simpl. lia. Qed.

(** ** Short channel ids *)

Lemma land_ones_mod (a n : Z) : 0 <= n -> Z.land a (Z.ones n) = a mod 2 ^ n.
Proof. intros. apply Z.land_ones. assumption. Qed.

(** C7: for an unsigned 64-bit [scid], [get_scid_from_int] returns the
    decimal block height, transaction index and output index joined by
    ["x"], where the three fields are [(scid >> 40) & 0xFFFFFF],
    [(scid >> 16) & 0xFFFFFF] and [scid & 0xFFFF]; they are the 24-, 24-
    and 16-bit digits of [scid], so that packing them again gives [scid]
    back. *)
Theorem get_scid_from_int_fields (scid : Z) :
  0 <= scid < 2 ^ 64 ->
  exists block txindex output,
    block = Z.land (Z.shiftr scid 40) 0xFFFFFF
    /\ txindex = Z.land (Z.shiftr scid 16) 0xFFFFFF
    /\ output = Z.land scid 0xFFFF
    /\ get_scid_from_int scid
       = str_of_int block +:+ "x" +:+ str_of_int txindex +:+ "x" +:+ str_of_int output
    /\ 0 <= block < 2 ^ 24 /\ 0 <= txindex < 2 ^ 24 /\ 0 <= output < 2 ^ 16
    /\ block * 2 ^ 40 + txindex * 2 ^ 16 + output = scid.
Proof.
  intros Hscid.
  exists (Z.land (Z.shiftr scid 40) 0xFFFFFF),
         (Z.land (Z.shiftr scid 16) 0xFFFFFF), (Z.land scid 0xFFFF).
  repeat split; try reflexivity.
  all: change 0xFFFFFF with (Z.ones 24); change 0xFFFF with (Z.ones 16).
  all: rewrite ?land_ones_mod, ?Z.shiftr_div_pow2 by lia.
  all: try (apply Z.mod_pos_bound; lia).
  assert (H40 : scid / 2 ^ 40 < 2 ^ 24) by (apply Z.div_lt_upper_bound; lia).
  assert (H40' : 0 <= scid / 2 ^ 40) by (apply Z.div_pos; lia).
  rewrite (Z.mod_small (scid / 2 ^ 40)) by lia.
  pose proof (Z.div_mod scid (2 ^ 16) ltac:(lia)) as E16.
  pose proof (Z.div_mod (scid / 2 ^ 16) (2 ^ 24) ltac:(lia)) as E24.
  rewrite Z.div_div in E24 by lia.
  change (2 ^ 16 * 2 ^ 24) with (2 ^ 40) in E24.
  lia.
Qed.

Lemma get_scid_from_int_fields_witness :
  0 <= 0x0a2b3c0000010002 < 2 ^ 64
  /\ exists block txindex output,
       block = Z.land (Z.shiftr 0x0a2b3c0000010002 40) 0xFFFFFF
       /\ txindex = Z.land (Z.shiftr 0x0a2b3c0000010002 16) 0xFFFFFF
       /\ output = Z.land 0x0a2b3c0000010002 0xFFFF
       /\ get_scid_from_int 0x0a2b3c0000010002
          = str_of_int block +:+ "x" +:+ str_of_int txindex +:+ "x" +:+ str_of_int output
       /\ 0 <= block < 2 ^ 24 /\ 0 <= txindex < 2 ^ 24 /\ 0 <= output < 2 ^ 16
       /\ block * 2 ^ 40 + txindex * 2 ^ 16 + output = 0x0a2b3c0000010002.
Proof.
  split; [lia | apply (get_scid_from_int_fields 0x0a2b3c0000010002); lia].
Defined.

(** ** Message type detection and prefix stripping *)

Section MessageTypeProperties.

Variables L C : gset Z.

Lemma slice_to_two (hi lo : byte) (rest : list byte) :
  slice_to 2 (hi :: lo :: rest) = [hi; lo].
Proof. reflexivity. Qed.

Lemma known_union (v : Z) : v ∈ L ∪ C <-> v ∈ L \/ v ∈ C.
Proof. apply elem_of_union. Qed.

(** What the detector computes on a buffer that starts with [hi], [lo]. *)
Lemma get_message_type_by_raw_hex_cons (hi lo : byte) (rest : list byte) :
  get_message_type_by_raw_hex L C (hi :: lo :: rest)
  = Return (if decide (256 * byte_val hi + byte_val lo ∈ L
                       \/ 256 * byte_val hi + byte_val lo ∈ C)
            then Some (256 * byte_val hi + byte_val lo) else None).
Proof.
  unfold get_message_type_by_raw_hex.
  rewrite !len_cons. pose proof (len_nonneg rest).
  destruct (Z.ltb_spec (len rest + 1 + 1) 2); [lia|].
  rewrite slice_to_two, unpack_H_two. simpl rbind.
  set (v := 256 * byte_val hi + byte_val lo).
  destruct (decide (v ∈ L \/ v ∈ C)) as [[H1|H1]|H1].
  - rewrite (bool_decide_eq_true_2 _ H1). reflexivity.
  - rewrite (bool_decide_eq_true_2 _ H1), orb_true_r. reflexivity.
  - rewrite !bool_decide_eq_false_2 by tauto. reflexivity.
Qed.

(** What the stripper computes on a buffer that starts with [hi], [lo]. *)
Lemma strip_known_message_type_cons (hi lo : byte) (rest : list byte) :
  strip_known_message_type L C (hi :: lo :: rest)
  = Return (if decide (256 * byte_val hi + byte_val lo ∈ L
                       \/ 256 * byte_val hi + byte_val lo ∈ C)
            then rest else hi :: lo :: rest).
Proof.
  unfold strip_known_message_type, strip_known_message_type_try.
  rewrite !len_cons. pose proof (len_nonneg rest).
  destruct (Z.ltb_spec (len rest + 1 + 1) 2); [lia|].
  rewrite slice_to_two, int_from_bytes_big_two.
  set (v := 256 * byte_val hi + byte_val lo).
  destruct (decide (v ∈ L \/ v ∈ C)) as [H1|H1].
  - rewrite bool_decide_eq_true_2 by (apply known_union; exact H1). reflexivity.
  - rewrite bool_decide_eq_false_2 by (rewrite known_union; exact H1). reflexivity.
Qed.

Lemma strip_known_message_type_short (data : list byte) :
  len data < 2 -> is_raise (strip_known_message_type L C data) = true.
Proof.
  intros H. unfold strip_known_message_type, strip_known_message_type_try.
  destruct (Z.ltb_spec (len data) 2); [reflexivity | lia].
Qed.

End MessageTypeProperties.

(** C5: the detector raises exactly on buffers shorter than two bytes;
    on any longer buffer it returns the unsigned big-endian 16-bit value
    of the first two bytes when that value is in either known-type set,
    and [None] otherwise. *)
Theorem get_message_type_by_raw_hex_spec (L C : gset Z) (raw_hex : list byte) :
  (is_raise (get_message_type_by_raw_hex L C raw_hex) = true <-> len raw_hex < 2)
  /\ (len raw_hex < 2 ->
      get_message_type_by_raw_hex L C raw_hex
      = Raise (ValueError
          "Insufficient data: Expected at least 2 bytes to extract message type."))
  /\ (2 <= len raw_hex ->
      exists hi lo rest v,
        raw_hex = hi :: lo :: rest
        /\ v = 256 * byte_val hi + byte_val lo
        /\ 0 <= v < 65536
        /\ (v ∈ L \/ v ∈ C -> get_message_type_by_raw_hex L C raw_hex = Return (Some v))
        /\ ((v ∉ L) /\ (v ∉ C) -> get_message_type_by_raw_hex L C raw_hex = Return None)).
Proof.
  assert (Hshort : len raw_hex < 2 ->
      get_message_type_by_raw_hex L C raw_hex
      = Raise (ValueError
          "Insufficient data: Expected at least 2 bytes to extract message type.")).
  { intros H. unfold get_message_type_by_raw_hex.
    destruct (Z.ltb_spec (len raw_hex) 2); [reflexivity | lia]. }
  assert (Hlong : 2 <= len raw_hex ->
      exists hi lo rest v,
        raw_hex = hi :: lo :: rest
        /\ v = 256 * byte_val hi + byte_val lo
        /\ 0 <= v < 65536
        /\ (v ∈ L \/ v ∈ C -> get_message_type_by_raw_hex L C raw_hex = Return (Some v))
        /\ ((v ∉ L) /\ (v ∉ C) -> get_message_type_by_raw_hex L C raw_hex = Return None)).
  { intros H. destruct (two_bytes_inv raw_hex H) as (hi & lo & rest & ->).
    exists hi, lo, rest, (256 * byte_val hi + byte_val lo).
    pose proof (byte_val_range hi). pose proof (byte_val_range lo).
    rewrite get_message_type_by_raw_hex_cons.
    repeat split; try lia.
    - intros Hin. rewrite decide_True by exact Hin. reflexivity.
    - intros Hout. rewrite decide_False by tauto. reflexivity. }
  repeat split; try assumption.
  - intros Hr. destruct (Z.lt_ge_cases (len raw_hex) 2) as [|Hge]; [assumption|].
    destruct (Hlong Hge) as (hi & lo & rest & v & -> & _).
    rewrite get_message_type_by_raw_hex_cons in Hr. discriminate.
  - intros H. rewrite (Hshort H). reflexivity.
Qed.

Lemma get_message_type_by_raw_hex_spec_witness :
  get_message_type_by_raw_hex bolt7_gossip_types no_types [x01] 
  = Raise (ValueError
      "Insufficient data: Expected at least 2 bytes to extract message type.")
  /\ exists hi lo rest v,
       [x01; x02; xaa] = hi :: lo :: rest
       /\ v = 256 * byte_val hi + byte_val lo
       /\ 0 <= v < 65536
       /\ (v ∈ bolt7_gossip_types \/ v ∈ no_types ->
           get_message_type_by_raw_hex bolt7_gossip_types no_types [x01; x02; xaa]
           = Return (Some v))
       /\ ((v ∉ bolt7_gossip_types) /\ (v ∉ no_types) ->
           get_message_type_by_raw_hex bolt7_gossip_types no_types [x01; x02; xaa]
           = Return None).
Proof.
  split.
  - apply (get_message_type_by_raw_hex_spec bolt7_gossip_types no_types [x01]).
    unfold len. simpl. lia.
  - apply (get_message_type_by_raw_hex_spec bolt7_gossip_types no_types [x01; x02; xaa]).
    unfold len. simpl. lia.
Defined.

(** Dropping two bytes changes a buffer. *)
Lemma tail_two_neq {A} (hi lo : A) (rest : list A) : rest <> hi :: lo :: rest.
Proof.
  intros E. apply (f_equal (@length A)) in E. simpl in E. lia.
Qed.

(** C9: on a buffer of two bytes or more, the stripper removes the first
    two bytes exactly when the detector reports a type, and returns the
    buffer unchanged exactly when the detector reports none. *)
Theorem detector_stripper_agree (L C : gset Z) (data : list byte) :
  2 <= len data ->
  (strip_known_message_type L C data = Return (slice_from 2 data)
   <-> exists t, get_message_type_by_raw_hex L C data = Return (Some t))
  /\ (strip_known_message_type L C data = Return data
      <-> get_message_type_by_raw_hex L C data = Return None).
Proof.
  intros H. destruct (two_bytes_inv data H) as (hi & lo & rest & ->).
  rewrite strip_known_message_type_cons, get_message_type_by_raw_hex_cons.
  change (slice_from 2 (hi :: lo :: rest)) with rest.
  destruct (decide _) as [Hk|Hk]; (split; split).
  - eauto.
  - reflexivity.
  - intros E. injection E as E. exfalso. exact (tail_two_neq _ _ _ E).
  - discriminate.
  - intros E. injection E as E. exfalso. symmetry in E. exact (tail_two_neq _ _ _ E).
  - intros [t E]. discriminate.
  - reflexivity.
  - reflexivity.
Qed.

Lemma detector_stripper_agree_witness :
  2 <= len [x01; x02; xaa]
  /\ (strip_known_message_type bolt7_gossip_types no_types [x01; x02; xaa]
      = Return (slice_from 2 [x01; x02; xaa])
      <-> exists t, get_message_type_by_raw_hex bolt7_gossip_types no_types
                      [x01; x02; xaa] = Return (Some t))
  /\ (strip_known_message_type bolt7_gossip_types no_types [x01; x02; xaa]
      = Return [x01; x02; xaa]
      <-> get_message_type_by_raw_hex bolt7_gossip_types no_types [x01; x02; xaa]
          = Return None).
Proof.
  assert (H : 2 <= len [x01; x02; xaa]) by (unfold len; simpl; lia).
  split; [exact H|].
  apply (detector_stripper_agree bolt7_gossip_types no_types [x01; x02; xaa] H).
Defined.

(** C6, counterexample: a buffer that is nothing but a known type tag
    strips to the empty buffer, which starts with no tag, and stripping
    the empty buffer raises. *)
Lemma strip_idempotent_claim_fails :
  strip_known_message_type bolt7_gossip_types no_types [x01; x00] = Return []
  /\ strip_known_message_type bolt7_gossip_types no_types []
     = Raise (ValueError
         "Failed to strip known message type: Input data is too short to contain a message type prefix.")
  /\ ~ strip_idempotent_claim.
Proof.
  assert (E1 : strip_known_message_type bolt7_gossip_types no_types [x01; x00]
               = Return []) by (vm_compute; reflexivity).
  assert (E2 : strip_known_message_type bolt7_gossip_types no_types []
     = Raise (ValueError
         "Failed to strip known message type: Input data is too short to contain a message type prefix."))
    by (vm_compute; reflexivity).
  repeat split; try assumption.
  intros Hclaim.
  specialize (Hclaim bolt7_gossip_types no_types [x01; x00] []).
  rewrite E2 in Hclaim.
  assert (Habs : @Raise (list byte) (ValueError
         "Failed to strip known message type: Input data is too short to contain a message type prefix.")
         = Return []).
  { apply Hclaim.
    - unfold len. simpl. lia.
    - exact E1.
    - intros [Hlen _]. unfold len in Hlen. simpl in Hlen. lia. }
  discriminate Habs.
Qed.

(** C6, amended: on a buffer of two bytes or more, when the stripped
    result still has two bytes or more and does not start with a known
    type tag, stripping it again returns it unchanged and does not
    raise. *)
Theorem strip_known_message_type_idempotent
    (L C : gset Z) (data r : list byte) :
  2 <= len data ->
  strip_known_message_type L C data = Return r ->
  2 <= len r ->
  ~ starts_with_known_type L C r ->
  strip_known_message_type L C r = Return r.
Proof.
  intros _ _ Hr Hunknown.
  destruct (two_bytes_inv r Hr) as (hi & lo & rest & ->).
  rewrite strip_known_message_type_cons.
  destruct (decide _) as [Hk|Hk]; [|reflexivity].
  exfalso. apply Hunknown. split; [exact Hr|].
  rewrite slice_to_two, int_from_bytes_big_two. exact Hk.
Qed.

Lemma strip_known_message_type_idempotent_witness :
  2 <= len [x01; x00; xaa; xbb]
  /\ strip_known_message_type bolt7_gossip_types no_types [x01; x00; xaa; xbb]
     = Return [xaa; xbb]
  /\ 2 <= len [xaa; xbb]
  /\ ~ starts_with_known_type bolt7_gossip_types no_types [xaa; xbb]
  /\ strip_known_message_type bolt7_gossip_types no_types [xaa; xbb]
     = Return [xaa; xbb].
Proof.
  assert (H1 : 2 <= len [x01; x00; xaa; xbb]) by (unfold len; simpl; lia).
  assert (H2 : strip_known_message_type bolt7_gossip_types no_types
                 [x01; x00; xaa; xbb] = Return [xaa; xbb])
    by (vm_compute; reflexivity).
  assert (H3 : 2 <= len [xaa; xbb]) by (unfold len; simpl; lia).
  assert (H4 : ~ starts_with_known_type bolt7_gossip_types no_types [xaa; xbb]).
  { intros [_ H]. rewrite slice_to_two, int_from_bytes_big_two in H.
    change (256 * byte_val xaa + byte_val xbb) with 43707 in H.
    destruct H as [H|H].
    - refine (bool_decide_eq_false_1 (43707 ∈ bolt7_gossip_types) _ H).
      vm_compute. reflexivity.
    - refine (bool_decide_eq_false_1 (43707 ∈ no_types) _ H).
      vm_compute. reflexivity. }
  split; [exact H1|]. split; [exact H2|]. split; [exact H3|]. split; [exact H4|].
  exact (strip_known_message_type_idempotent
           bolt7_gossip_types no_types [x01; x00; xaa; xbb] [xaa; xbb] H1 H2 H3 H4).
Defined.

(** ** Reading from the stream *)

(** [read] returns the bytes after the position, as many as asked for
    or as are left, and moves the position past them. *)
Lemma read_spec (b : BytesIO) (size : Z) :
  let k := Z.to_nat (if size <? 0 then remaining b else Z.min size (remaining b)) in
  read b size
  = (firstn k (skipn (position b) (buffer b)),
     mkBytesIO (buffer b) (position b + k))
  /\ length (firstn k (skipn (position b) (buffer b))) = k.
Proof.
  unfold read, remaining, len.
  set (n := Z.of_nat (length (buffer b)) - Z.of_nat (position b)).
  assert (Hk : (if (size <? 0) || (n <? size) then if n <? 0 then 0 else n else size)
               = (if size <? 0 then Z.max 0 n else Z.min size (Z.max 0 n))).
  { destruct (Z.ltb_spec size 0), (Z.ltb_spec n size), (Z.ltb_spec n 0);
      simpl; lia. }
  rewrite Hk. cbv zeta. split; [reflexivity|].
  rewrite length_take, length_drop.
  destruct (Z.ltb_spec size 0); lia.
Qed.

Lemma read_exact_returns (b : BytesIO) (n : Z) :
  0 <= n <= remaining b ->
  read_exact n b
  = (Return (firstn (Z.to_nat n) (skipn (position b) (buffer b))),
     mkBytesIO (buffer b) (position b + Z.to_nat n)).
Proof.
  intros Hn. unfold read_exact.
  destruct (read_spec b n) as [E Hlen]. cbv zeta in E, Hlen.
  destruct (Z.ltb_spec n 0); [lia|].
  rewrite Z.min_l in E, Hlen by lia.
  rewrite E. unfold len. rewrite Hlen.
  destruct (Z.eqb_spec (Z.of_nat (Z.to_nat n)) n); [reflexivity | lia].
Qed.

Lemma read_exact_raises (b : BytesIO) (n : Z) :
  n < 0 \/ remaining b < n ->
  exists msg,
    read_exact n b
    = (Raise (ValueError msg),
       mkBytesIO (buffer b) (position b + Z.to_nat (remaining b))).
Proof.
  intros Hn. unfold read_exact.
  destruct (read_spec b n) as [E Hlen]. cbv zeta in E, Hlen.
  assert (Hrem : 0 <= remaining b) by (unfold remaining; lia).
  assert (Hk : (if n <? 0 then remaining b else Z.min n (remaining b)) = remaining b).
  { destruct (Z.ltb_spec n 0); lia. }
  rewrite Hk in E, Hlen.
  rewrite E. unfold len. rewrite Hlen.
  destruct (Z.eqb_spec (Z.of_nat (Z.to_nat (remaining b))) n); [lia|].
  simpl. eauto.
Qed.





(** ** Address decoding *)

Lemma keeps_buffer_ret {A} (a : A) : keeps_buffer (ret a).
Proof. intros b. reflexivity. Qed.

Lemma keeps_buffer_lift {A} (r : result A) : keeps_buffer (lift r).
Proof. intros b. reflexivity. Qed.

Lemma keeps_buffer_read_exact (n : Z) : keeps_buffer (read_exact n).
Proof.
  intros b. unfold read_exact, read.
  match goal with |- context [negb ?c] => destruct (negb c) end; reflexivity.
Qed.

Lemma keeps_buffer_bind {A B} (m : M A) (k : A -> M B) :
  keeps_buffer m -> (forall a, keeps_buffer (k a)) -> keeps_buffer (bind m k).
Proof.
  intros Hm Hk b. unfold bind. specialize (Hm b).
  destruct (m b) as [[e|a] b1]; simpl in *.
  - exact Hm.
  - rewrite Hk. exact Hm.
Qed.

Lemma keeps_buffer_if {A} (c : bool) (m1 m2 : M A) :
  keeps_buffer m1 -> keeps_buffer m2 -> keeps_buffer (if c then m1 else m2).
Proof. destruct c; auto. Qed.

Create HintDb stream.
#[local] Hint Resolve keeps_buffer_ret keeps_buffer_lift keeps_buffer_read_exact
  keeps_buffer_if : stream.

Ltac keeps_buffer_tac :=
  repeat first
    [ apply keeps_buffer_bind; [auto with stream | intros ?]
    | apply keeps_buffer_if
    | solve [auto with stream] ].

Lemma keeps_buffer_parse_address_try (new_AddressType : Z -> result AddressType) :
  keeps_buffer (parse_address_try new_AddressType).
Proof. unfold parse_address_try. keeps_buffer_tac. Qed.

Lemma seek_back (b b' : BytesIO) :
  buffer b' = buffer b -> seek b' (tell b) = b.
Proof. destruct b, b'. unfold seek, tell. simpl. intros ->. reflexivity. Qed.

(** When the block raises, the handler puts the stream back as it was at
    entry, reports the exception and returns [None]. *)
Lemma parse_address_raise (new_AddressType : Z -> result AddressType)
    (b b' : BytesIO) (e : exn) :
  parse_address_try new_AddressType b = (Raise e, b') ->
  parse_address new_AddressType b = mkOutcome None b (Some e).
Proof.
  intros E. unfold parse_address. rewrite E. f_equal.
  apply seek_back.
  pose proof (keeps_buffer_parse_address_try new_AddressType b) as Hb.
  rewrite E in Hb. exact Hb.
Qed.

Lemma bind_return_inv {A B} (m : M A) (k : A -> M B) (b b' : BytesIO) (x : B) :
  bind m k b = (Return x, b') ->
  exists a b1, m b = (Return a, b1) /\ k a b1 = (Return x, b').
Proof.
  unfold bind. destruct (m b) as [[e|a] b1]; [discriminate | eauto].
Qed.

Lemma lift_return_inv {A} (r : result A) (b b' : BytesIO) (x : A) :
  lift r b = (Return x, b') -> r = Return x /\ b' = b.
Proof. unfold lift. intros E. injection E as -> ->. auto. Qed.

Lemma read_exact_return_inv (n : Z) (b b' : BytesIO) (data : list byte) :
  0 <= n ->
  read_exact n b = (Return data, b') ->
  data = firstn (Z.to_nat n) (skipn (position b) (buffer b))
  /\ b' = mkBytesIO (buffer b) (position b + Z.to_nat n)
  /\ len data = n.
Proof.
  intros Hn E.
  destruct (Z.lt_ge_cases (remaining b) n) as [Hlt|Hge].
  - destruct (read_exact_raises b n (or_intror Hlt)) as [msg E'].
    rewrite E' in E. discriminate E.
  - rewrite read_exact_returns in E by lia. injection E as <- <-.
    split; [reflexivity|]. split; [reflexivity|].
    unfold len. rewrite length_take, length_drop.
    unfold remaining, len in Hge. lia.
Qed.

(** Peel the binds of a block that returned. *)
Ltac peel H :=
  repeat match type of H with
  | bind _ _ _ = (Return _, _) =>
      let a := fresh "a" in let b1 := fresh "b" in
      let H1 := fresh "Hstep" in
      apply bind_return_inv in H; destruct H as (a & b1 & H1 & H)
  | ret _ _ = (Return _, _) => unfold ret in H; injection H as H ?
  end.

(** The block returns [None] only through its last branch: the type byte
    has been read, it is none of 1..5, and nothing else was read. *)
Lemma parse_address_try_none (new_AddressType : Z -> result AddressType)
    (b b' : BytesIO) :
  parse_address_try new_AddressType b = (Return None, b') ->
  b' = mkBytesIO (buffer b) (position b + 1)
  /\ exists t, skipn (position b) (buffer b) = t :: skipn (position b + 1) (buffer b)
       /\ ~ (1 <= byte_val t <= 5).
Proof.
  intros E. unfold parse_address_try in E.
  apply bind_return_inv in E. destruct E as (type_byte & b1 & Hread & E).
  apply bind_return_inv in E. destruct E as (type_id & b2 & Hid & E).
  apply bind_return_inv in E. destruct E as (a_typ & b3 & Htyp & E).
  apply read_exact_return_inv in Hread; [|lia]. destruct Hread as (Hdata & -> & Hlen).
  apply lift_return_inv in Hid. destruct Hid as [Hid ->].
  apply lift_return_inv in Htyp. destruct Htyp as [_ ->].
  repeat match type of E with
  | (if ?c then _ else _) _ = _ => destruct c eqn:?
  end;
  try (peel E; discriminate).
  unfold ret in E. injection E as <-.
  split; [reflexivity|].
  destruct type_byte as [|t [|? ?]]; try discriminate Hid.
  injection Hid as <-.
  exists t. split.
  - change (Z.to_nat 1) with 1%nat in Hdata.
    destruct (skipn (position b) (buffer b)) as [|t' rest] eqn:Hs; [discriminate|].
    injection Hdata as ->. f_equal.
    rewrite <- drop_drop, Hs. reflexivity.
  - lia.
Qed.

Lemma read_exact_one (b : BytesIO) (t : byte) (rest : list byte) :
  skipn (position b) (buffer b) = t :: rest ->
  read_exact 1 b = (Return [t], mkBytesIO (buffer b) (position b + 1)).
Proof.
  intros Hs.
  assert (Hrem : 1 <= remaining b).
  { unfold remaining, len. apply (f_equal (@length byte)) in Hs.
    rewrite length_drop in Hs. simpl in Hs. lia. }
  rewrite read_exact_returns by lia.
  change (Z.to_nat 1) with 1%nat. rewrite Hs. reflexivity.
Qed.

(** Every way for [parse_address] to return [None]: either the block
    raised, and the stream is back as it was at entry; or the block
    returned [None] itself, on a type byte outside 1..5, and the stream
    is one byte further than at entry. *)
Lemma parse_address_absent (new_AddressType : Z -> result AddressType) (b : BytesIO) :
  returned (parse_address new_AddressType b) = None ->
  (exists e, parse_address new_AddressType b = mkOutcome None b (Some e))
  \/ (parse_address new_AddressType b
      = mkOutcome None (mkBytesIO (buffer b) (position b + 1)) None
      /\ exists t, skipn (position b) (buffer b) = t :: skipn (position b + 1) (buffer b)
           /\ ~ (1 <= byte_val t <= 5)).
Proof.
  intros Hnone.
  destruct (parse_address_try new_AddressType b) as [[e|a] b'] eqn:E.
  - left. exists e. eapply parse_address_raise. exact E.
  - right. unfold parse_address in Hnone |- *. rewrite E in Hnone |- *.
    simpl in Hnone. subst a.
    destruct (parse_address_try_none _ _ _ E) as [-> Ht].
    split; [reflexivity | exact Ht].
Qed.

(** A constructor that raises on the type byte sends [parse_address]
    through its handler: the stream is restored. *)
Lemma parse_address_constructor_raises (new_AddressType : Z -> result AddressType)
    (b : BytesIO) (t : byte) (rest : list byte) (e : exn) :
  skipn (position b) (buffer b) = t :: rest ->
  new_AddressType (byte_val t) = Raise e ->
  parse_address new_AddressType b = mkOutcome None b (Some e).
Proof.
  intros Hs Hc.
  apply parse_address_raise with (b' := mkBytesIO (buffer b) (position b + 1)).
  unfold parse_address_try, bind. rewrite (read_exact_one b t rest Hs).
  unfold lift at 1. simpl unpack_B. cbv iota beta.
  unfold lift at 1. rewrite Hc. reflexivity.
Qed.

(** A constructor that returns on a type byte outside 1..5 lets
    [parse_address] leave through [else: return None]: nothing is
    reported and the stream stays one byte past the entry position. *)
Lemma parse_address_unknown_type (new_AddressType : Z -> result AddressType)
    (b : BytesIO) (t : byte) (rest : list byte) (a_typ : AddressType) :
  skipn (position b) (buffer b) = t :: rest ->
  new_AddressType (byte_val t) = Return a_typ ->
  ~ (1 <= byte_val t <= 5) ->
  parse_address new_AddressType b
  = mkOutcome None (mkBytesIO (buffer b) (position b + 1)) None.
Proof.
  intros Hs Hc Ht.
  unfold parse_address, parse_address_try, bind.
  rewrite (read_exact_one b t rest Hs).
  unfold lift at 1. simpl unpack_B. cbv iota beta.
  unfold lift at 1. rewrite Hc. cbv iota beta.
  repeat match goal with
  | |- context [?x =? ?y] => destruct (Z.eqb_spec x y); [lia|]
  end.
  reflexivity.
Qed.

(** C1, at a failing input: on a stream holding the single type byte 0
    (an unsupported type), [parse_address] returns [None] without an
    exception, and the position afterwards is 1, not the 0 recorded at
    entry: the [else: return None] branch does not seek back. *)
Theorem parse_address_unknown_type_not_restored :
  parse_address AddressType_of_id (mkBytesIO [x00] 0)
  = mkOutcome None (mkBytesIO [x00] 1) None
  /\ tell (stream (parse_address AddressType_of_id (mkBytesIO [x00] 0)))
     <> tell (mkBytesIO [x00] 0).
Proof.
  split; [vm_compute; reflexivity|].
  vm_compute. discriminate.
Qed.

(** C8: on the seven bytes 01 7F 00 00 01 00 50, [parse_address] returns
    the address of type 1 (IPv4) with text 127.0.0.1 and port 80,
    reports nothing, and leaves the position after the seventh byte. *)
Theorem parse_address_ipv4_example
    (new_AddressType : Z -> result AddressType) (ipv4 : AddressType) :
  new_AddressType 1 = Return ipv4 ->
  parse_address new_AddressType
    (mkBytesIO [x01; x7f; x00; x00; x01; x00; x50] 0)
  = mkOutcome (Some (mkAddress ipv4 "127.0.0.1" 80))
      (mkBytesIO [x01; x7f; x00; x00; x01; x00; x50] 7) None.
Proof.
  intros Hctor. unfold parse_address, parse_address_try, bind.
  change (read_exact 1 (mkBytesIO [x01; x7f; x00; x00; x01; x00; x50] 0))
    with (Return [x01], mkBytesIO [x01; x7f; x00; x00; x01; x00; x50] 1).
  cbv iota beta. unfold lift at 1. simpl unpack_B. cbv iota beta.
  unfold lift at 1. change (byte_val x01) with 1. rewrite Hctor. cbv iota beta.
  vm_compute. reflexivity.
Qed.

Lemma parse_address_ipv4_example_witness :
  AddressType_of_id 1 = Return (mkAddressType 1 "IPv4")
  /\ parse_address AddressType_of_id
       (mkBytesIO [x01; x7f; x00; x00; x01; x00; x50] 0)
     = mkOutcome (Some (mkAddress (mkAddressType 1 "IPv4") "127.0.0.1" 80))
         (mkBytesIO [x01; x7f; x00; x00; x01; x00; x50] 7) None.
Proof.
  split; [reflexivity|].
  apply (parse_address_ipv4_example AddressType_of_id (mkAddressType 1 "IPv4")).
  reflexivity.
Defined.

(** ** Alias decoding *)

(** *** The codecs terminate *)

Lemma adapt_loop_terminates (fuel : positive) (delta divisions : Z) :
  delta <= Z.pos fuel -> exists r, adapt_loop fuel delta divisions = Some r.
Proof.
  revert delta divisions.
  induction fuel as [fuel IH|fuel IH|]; intros delta divisions Hle; simpl;
    destruct (Z.ltb_spec 455 delta); eauto; try lia.
  - apply IH. apply Z.div_le_upper_bound; lia.
  - apply IH. apply Z.div_le_upper_bound; lia.
Qed.

Lemma adapt_terminates (delta : Z) (first : bool) (numchars : Z) :
  exists bias, adapt delta first numchars = Some bias.
Proof.
  unfold adapt.
  set (d1 := if first then delta / 700 else delta / 2).
  set (d2 := d1 + d1 / numchars).
  destruct (adapt_loop_terminates (Z.to_pos d2) d2 0) as [[d divisions] ->]; [|eauto].
  destruct d2; simpl; lia.
Qed.

Lemma decode_generalized_number_consumes
    (ext : list Z) (extpos bias res w j : Z) (ext' : list Z) (newpos delta : Z) :
  decode_generalized_number ext extpos bias res w j = Return (ext', newpos, delta) ->
  (length ext' < length ext)%nat.
Proof.
  revert extpos res w j.
  induction ext as [|char ext IH]; intros extpos res w j E; simpl in E.
  - discriminate E.
  - destruct (if (65 <=? char) && (char <=? 90) then Return (char - 65)
              else if (48 <=? char) && (char <=? 57) then Return (char - 22)
                   else Raise (UnicodeError "Invalid extended code point"))
      as [e|digit]; simpl in E; [discriminate E|].
    destruct (digit <? T j bias).
    + injection E as <- _ _. simpl. lia.
    + apply IH in E. simpl. lia.
Qed.

Lemma insertion_loop_terminates (fuel : nat) :
  forall (base : pystr) (ext : list Z) (extpos char pos bias : Z),
    (length ext <= fuel)%nat ->
    exists r, insertion_loop fuel base ext extpos char pos bias = Some r.
Proof.
  induction fuel as [|fuel IH]; intros base ext extpos char pos bias Hle.
  - destruct ext; simpl in *; [eauto | lia].
  - destruct ext as [|c ext]; [simpl; eauto|].
    cbn [insertion_loop].
    destruct (decode_generalized_number (c :: ext) extpos bias 0 1 0)
      as [e|[[ext' newpos] delta]] eqn:E; [eauto|].
    apply decode_generalized_number_consumes in E.
    destruct (_ <? _); [eauto|].
    match goal with |- context [adapt ?d ?f ?n] =>
      destruct (adapt_terminates d f n) as [bias' ->] end.
    apply IH. simpl in *. lia.
Qed.

Lemma insertion_sort_terminates (base : pystr) (extended : list Z) :
  exists r, insertion_sort base extended = Some r.
Proof. apply insertion_loop_terminates. lia. Qed.

Lemma punycode_decode_terminates (text : list byte) :
  exists r, punycode_decode text = Some r.
Proof.
  unfold punycode_decode.
  destruct (rfind x2d text) as [pos|].
  - destruct (decode_ascii (firstn pos text)); [eauto|].
    destruct (decode_ascii (skipn (pos + 1) text)); [eauto|].
    apply insertion_sort_terminates.
  - destruct (decode_ascii text); [eauto|].
    apply insertion_sort_terminates.
Qed.

(** *** The UTF-8 decoder raises [UnicodeDecodeError] and nothing else *)

Ltac utf8_cases IH :=
  repeat match goal with
  | E : utf8_error = Raise _ |- _ => injection E as <-; reflexivity
  | E : Return _ = Raise _ |- _ => discriminate E
  | E : rbind (utf8_decode ?r) _ = Raise _ |- _ =>
      let E1 := fresh "Erec" in
      destruct (utf8_decode r) eqn:E1; simpl in E;
      [ injection E as <-; eapply IH; [|exact E1]; simpl in *; lia
      | discriminate E ]
  | E : context [match ?l with [] => _ | _ :: _ => _ end] |- _ => destruct l
  | E : (if ?c then _ else _) = Raise _ |- _ => destruct c
  end.

Lemma utf8_decode_raises_bounded (n : nat) :
  forall (data : list byte) (e : exn),
    (length data <= n)%nat ->
    utf8_decode data = Raise e -> e = UnicodeDecodeError "utf-8".
Proof.
  induction n as [|n IH]; intros data e Hlen E.
  - destruct data; [discriminate E | simpl in Hlen; lia].
  - destruct data as [|b0 rest]; [discriminate E|].
    simpl in E, Hlen. utf8_cases IH.
Qed.

Lemma utf8_decode_raises (data : list byte) (e : exn) :
  utf8_decode data = Raise e -> e = UnicodeDecodeError "utf-8".
Proof. apply (utf8_decode_raises_bounded (length data)). lia. Qed.

(** *** [bytes.hex] *)

Lemma bytes_hex_byte (b : byte) :
  exists c1 c2,
    pystr_of_string (bytes_hex [b]) = [c1; c2]
    /\ is_lower_hex c1 = true /\ is_lower_hex c2 = true
    /\ 16 * hex_value c1 + hex_value c2 = byte_val b.
Proof.
  destruct b; do 2 eexists; repeat split.
Qed.

Lemma bytes_hex_cons (b : byte) (data : list byte) :
  pystr_of_string (bytes_hex (b :: data))
  = pystr_of_string (bytes_hex [b]) ++ pystr_of_string (bytes_hex data).
Proof. reflexivity. Qed.

(** The hexadecimal text of [data]: two lowercase digits for each byte,
    which read back as the bytes. *)
Lemma bytes_hex_spec (data : list byte) :
  length (pystr_of_string (bytes_hex data)) = (2 * length data)%nat
  /\ forallb is_lower_hex (pystr_of_string (bytes_hex data)) = true
  /\ unhex (pystr_of_string (bytes_hex data)) = map byte_val data.
Proof.
  induction data as [|b data (IHlen & IHhex & IHun)]; [repeat split|].
  rewrite bytes_hex_cons.
  destruct (bytes_hex_byte b) as (c1 & c2 & -> & H1 & H2 & Hv).
  simpl app. split; [|split].
  - simpl length. lia.
  - simpl forallb. rewrite H1, H2, IHhex. reflexivity.
  - simpl unhex. rewrite Hv, IHun. reflexivity.
Qed.

(** *** [strip] *)

Lemma lstrip_decompose {A} (p : A -> bool) (l : list A) :
  exists lead,
    l = lead ++ lstrip p l /\ forallb p lead = true
    /\ (forall a, head (lstrip p l) = Some a -> p a = false).
Proof.
  induction l as [|a l (lead & E & Hlead & Hhead)]; simpl.
  - exists []. repeat split. discriminate.
  - destruct (p a) eqn:Hp.
    + exists (a :: lead). simpl. rewrite Hp, Hlead. split; [f_equal; exact E|].
      split; [reflexivity | exact Hhead].
    + exists []. repeat split. simpl. intros a' [= <-]. exact Hp.
Qed.

Lemma forallb_rev {A} (p : A -> bool) (l : list A) :
  forallb p (rev l) = forallb p l.
Proof.
  induction l as [|a l IH]; [reflexivity|].
  simpl. rewrite forallb_app, IH. simpl. rewrite andb_true_r. apply andb_comm.
Qed.

Lemma last_rev_head {A} (l : list A) : last (rev l) = head l.
Proof. destruct l as [|a l]; [reflexivity|]. simpl. apply last_snoc. Qed.

(** [strip] cuts a run of stripped characters from each end, keeps what
    lies between, and stops at the first character, from either end, that
    is not stripped. *)
Lemma strip_decompose {A} (p : A -> bool) (l : list A) :
  exists lead trail,
    l = lead ++ strip p l ++ trail
    /\ forallb p lead = true /\ forallb p trail = true
    /\ (forall a, head (strip p l) = Some a -> p a = false)
    /\ (forall a, last (strip p l) = Some a -> p a = false).
Proof.
  unfold strip, rstrip.
  destruct (lstrip_decompose p l) as (lead & E & Hlead & Hhead).
  destruct (lstrip_decompose p (rev (lstrip p l))) as (trail & E' & Htrail & Hlast).
  exists lead, (rev trail).
  assert (Emid : lstrip p l = rev (lstrip p (rev (lstrip p l))) ++ rev trail).
  { rewrite <- rev_app_distr, <- E', rev_involutive. reflexivity. }
  split; [rewrite <- Emid; exact E|].
  split; [exact Hlead|].
  split; [rewrite forallb_rev; exact Htrail|].
  split.
  - intros a Ha. 
    destruct (rev (lstrip p (rev (lstrip p l)))) as [|x xs] eqn:Hx; [discriminate Ha|].
    simpl in Ha. injection Ha as ->.
    apply Hhead. rewrite Emid. reflexivity.
  - intros a Ha. apply Hlast. rewrite last_rev_head in Ha. exact Ha.
Qed.

(** *** [decode_alias] *)

(** On bytes that are UTF-8, the first attempt returns. *)
Lemma decode_alias_utf8 (alias_bytes : list byte) (s : pystr) :
  utf8_decode alias_bytes = Return s ->
  decode_alias alias_bytes = Some (Return (strip (Z.eqb 0) s)).
Proof. intros E. unfold decode_alias. rewrite E. reflexivity. Qed.

(** On bytes that are not UTF-8, the result is what the Punycode codec
    returns, or the hexadecimal text when the codec raises. *)
Lemma decode_alias_not_utf8 (alias_bytes : list byte) (e : exn) :
  utf8_decode alias_bytes = Raise e ->
  exists r,
    punycode_decode (strip (Byte.eqb x00) alias_bytes) = Some r
    /\ decode_alias alias_bytes
       = Some (Return (match r with
                       | Return s => s
                       | Raise _ => pystr_of_string (bytes_hex alias_bytes)
                       end)).
Proof.
  intros E. unfold decode_alias. rewrite E.
  rewrite (utf8_decode_raises _ _ E).
  destruct (punycode_decode_terminates (strip (Byte.eqb x00) alias_bytes)) as [r Hr].
  exists r. rewrite Hr. split; [reflexivity|]. destruct r; reflexivity.
Qed.

(** C3: [decode_alias] is total on 32-byte inputs: it ends, raises
    nothing and returns a string; when the bytes are not UTF-8 and the
    Punycode codec raises on the NUL-stripped bytes, the string is the
    hexadecimal text of the 32 bytes: 64 lowercase hexadecimal digits
    that read back as the bytes. *)
Theorem decode_alias_total (alias_bytes : list byte) :
  length alias_bytes = 32%nat ->
  exists s,
    decode_alias alias_bytes = Some (Return s)
    /\ (is_raise (utf8_decode alias_bytes) = true ->
        (exists e, punycode_decode (strip (Byte.eqb x00) alias_bytes)
                   = Some (Raise e)) ->
        s = pystr_of_string (bytes_hex alias_bytes)
        /\ length s = 64%nat
        /\ forallb is_lower_hex s = true
        /\ unhex s = map byte_val alias_bytes).
Proof.
  intros Hlen.
  destruct (utf8_decode alias_bytes) as [e|u] eqn:E.
  - destruct (decode_alias_not_utf8 _ _ E) as (r & Hr & Hd).
    eexists. split; [exact Hd|].
    intros _ [e' He']. rewrite He' in Hr. injection Hr as <-.
    destruct (bytes_hex_spec alias_bytes) as (H1 & H2 & H3).
    rewrite Hlen in H1. auto.
  - exists (strip (Z.eqb 0) u). split; [apply decode_alias_utf8; exact E|].
    intros Hr. discriminate Hr.
Qed.

Lemma decode_alias_total_witness :
  length (repeat xff 32) = 32%nat
  /\ exists s,
       decode_alias (repeat xff 32) = Some (Return s)
       /\ (is_raise (utf8_decode (repeat xff 32)) = true ->
           (exists e, punycode_decode (strip (Byte.eqb x00) (repeat xff 32))
                      = Some (Raise e)) ->
           s = pystr_of_string (bytes_hex (repeat xff 32))
           /\ length s = 64%nat
           /\ forallb is_lower_hex s = true
           /\ unhex s = map byte_val (repeat xff 32)).
Proof.
  split; [reflexivity|].
  apply (decode_alias_total (repeat xff 32)). reflexivity.
Defined.

(** The premises of the fallback hold on 32 bytes 0xFF: neither codec
    accepts them, and the result is ["ff"] 32 times. *)
Example decode_alias_all_ff :
  utf8_decode (repeat xff 32) = utf8_error
  /\ punycode_decode (strip (Byte.eqb x00) (repeat xff 32))
     = Some (Raise (UnicodeDecodeError "ascii"))
  /\ decode_alias (repeat xff 32)
     = Some (Return (pystr_of_string
          "ffffffffffffffffffffffffffffffffffffffffffffffffffffffffffffffff")).
Proof. repeat split. Qed.

(** C4, counterexample: an alias that starts with a NUL byte, here
    00 61 and thirty NULs, loses the leading NUL as well. *)
Lemma decode_alias_trailing_claim_fails :
  utf8_decode (x00 :: x61 :: repeat x00 30) = Return (0 :: 97 :: repeat 0 30)
  /\ rstrip (Z.eqb 0) (0 :: 97 :: repeat 0 30) = [0; 97]
  /\ decode_alias (x00 :: x61 :: repeat x00 30) = Some (Return [97])
  /\ ~ decode_alias_trailing_claim.
Proof.
  split; [reflexivity|]. split; [reflexivity|]. split; [reflexivity|].
  intros Hclaim.
  specialize (Hclaim (x00 :: x61 :: repeat x00 30) (0 :: 97 :: repeat 0 30)
                eq_refl eq_refl).
  vm_compute in Hclaim. discriminate Hclaim.
Qed.

(** C4, amended: on a 32-byte input that is UTF-8, [decode_alias]
    returns the decoded text with its leading and its trailing NUL
    characters stripped: the text is a run of NULs, the result, and a run
    of NULs, and the result neither starts nor ends with a NUL, so every
    character between the first and the last non-NUL one is kept. *)
Theorem decode_alias_utf8_strips_both_ends (alias_bytes : list byte) (s : pystr) :
  length alias_bytes = 32%nat ->
  utf8_decode alias_bytes = Return s ->
  exists lead r trail,
    decode_alias alias_bytes = Some (Return r)
    /\ s = lead ++ r ++ trail
    /\ Forall (eq 0) lead /\ Forall (eq 0) trail
    /\ head r <> Some 0 /\ last r <> Some 0.
Proof.
  intros _ E.
  destruct (strip_decompose (Z.eqb 0) s) as (lead & trail & Es & Hl & Ht & Hh & Hla).
  exists lead, (strip (Z.eqb 0) s), trail.
  split; [apply decode_alias_utf8; exact E|].
  split; [exact Es|].
  assert (Hall : forall l, forallb (Z.eqb 0) l = true -> Forall (eq 0) l).
  { intros l Hf. apply Forall_forall. intros x Hx.
    rewrite forallb_forall in Hf. apply Z.eqb_eq, Hf, list_elem_of_In, Hx. }
  split; [apply Hall; exact Hl|]. split; [apply Hall; exact Ht|].
  split; intros H0; [apply Hh in H0 | apply Hla in H0]; discriminate H0.
Qed.

Lemma decode_alias_utf8_strips_both_ends_witness :
  length (x00 :: x61 :: repeat x00 30) = 32%nat
  /\ utf8_decode (x00 :: x61 :: repeat x00 30) = Return (0 :: 97 :: repeat 0 30)
  /\ exists lead r trail,
       decode_alias (x00 :: x61 :: repeat x00 30) = Some (Return r)
       /\ 0 :: 97 :: repeat 0 30 = lead ++ r ++ trail
       /\ Forall (eq 0) lead /\ Forall (eq 0) trail
       /\ head r <> Some 0 /\ last r <> Some 0.
Proof.
  split; [reflexivity|]. split; [reflexivity|].
  apply (decode_alias_utf8_strips_both_ends
           (x00 :: x61 :: repeat x00 30) (0 :: 97 :: repeat 0 30));
    reflexivity.
Defined.

(** C10: on 32 zero bytes [decode_alias] returns the empty string: the
    bytes are UTF-8 (32 NUL characters) and stripping removes them all;
    the result is neither the hexadecimal text nor an error. *)
Theorem decode_alias_all_zero :
  utf8_decode (repeat x00 32) = Return (repeat 0 32)
  /\ decode_alias (repeat x00 32) = Some (Return [])
  /\ decode_alias (repeat x00 32)
     <> Some (Return (pystr_of_string (bytes_hex (repeat x00 32)))).
Proof.
  split; [reflexivity|]. split; [reflexivity|].
  vm_compute. discriminate.
Qed.

(** *** The Punycode attempt of [decode_alias] never returns

    Bytes that are not UTF-8 hold a byte above 0x7F; that byte is no NUL,
    so it survives the stripping, and the codec starts by decoding its
    input as ASCII. *)

Lemma utf8_decode_ascii_bytes (data : list byte) :
  forallb is_ascii_byte data = true ->
  utf8_decode data = Return (map byte_val data).
Proof.
  induction data as [|b data IH]; [reflexivity|].
  simpl. intros H. apply andb_prop in H. destruct H as [Hb Hd].
  unfold is_ascii_byte in Hb. rewrite Hb, (IH Hd). reflexivity.
Qed.

Lemma rfind_split (c : byte) (text : list byte) (pos : nat) :
  rfind c text = Some pos ->
  text = firstn pos text ++ c :: skipn (pos + 1) text.
Proof.
  revert pos. induction text as [|b text IH]; intros pos H; simpl in H.
  - discriminate H.
  - destruct (rfind c text) as [i|].
    + injection H as <-. simpl. f_equal. apply IH. reflexivity.
    + destruct (Byte.eqb b c) eqn:Hb; [|discriminate H].
      injection H as <-. apply Byte.byte_dec_bl in Hb. subst b. reflexivity.
Qed.

Lemma decode_ascii_raises (data : list byte) :
  forallb is_ascii_byte data = false ->
  decode_ascii data = Raise (UnicodeDecodeError "ascii").
Proof. intros H. unfold decode_ascii. rewrite H. reflexivity. Qed.

Lemma punycode_decode_non_ascii (text : list byte) :
  forallb is_ascii_byte text = false ->
  punycode_decode text = Some (Raise (UnicodeDecodeError "ascii")).
Proof.
  intros H. unfold punycode_decode.
  destruct (rfind x2d text) as [pos|] eqn:Hfind.
  - rewrite (rfind_split _ _ _ Hfind), forallb_app in H. simpl in H.
    destruct (forallb is_ascii_byte (firstn pos text)) eqn:Hbase.
    + simpl in H. unfold decode_ascii at 1. rewrite Hbase.
      rewrite (decode_ascii_raises _ H). reflexivity.
    + rewrite (decode_ascii_raises _ Hbase). reflexivity.
  - rewrite (decode_ascii_raises _ H). reflexivity.
Qed.

Lemma forallb_impl {A} (p q : A -> bool) (l : list A) :
  (forall a, p a = true -> q a = true) ->
  forallb p l = true -> forallb q l = true.
Proof.
  intros Hpq. rewrite !forallb_forall. auto.
Qed.

Lemma strip_nul_keeps_non_ascii (data : list byte) :
  forallb is_ascii_byte data = false ->
  forallb is_ascii_byte (strip (Byte.eqb x00) data) = false.
Proof.
  intros H.
  destruct (strip_decompose (Byte.eqb x00) data) as (lead & trail & E & Hl & Ht & _).
  assert (Hnul : forall a, Byte.eqb x00 a = true -> is_ascii_byte a = true).
  { intros a Ha. apply Byte.byte_dec_bl in Ha. subst a. reflexivity. }
  rewrite E, !forallb_app in H.
  rewrite (forallb_impl _ _ _ Hnul Hl), (forallb_impl _ _ _ Hnul Ht) in H.
  simpl in H. rewrite andb_true_r in H. exact H.
Qed.

(** Whenever the bytes are not UTF-8, [decode_alias] returns their
    hexadecimal text. *)
Lemma decode_alias_not_utf8_is_hex (alias_bytes : list byte) (e : exn) :
  utf8_decode alias_bytes = Raise e ->
  decode_alias alias_bytes = Some (Return (pystr_of_string (bytes_hex alias_bytes))).
Proof.
  intros E.
  assert (Hhigh : forallb is_ascii_byte alias_bytes = false).
  { destruct (forallb is_ascii_byte alias_bytes) eqn:H; [|reflexivity].
    rewrite (utf8_decode_ascii_bytes _ H) in E. discriminate E. }
  destruct (decode_alias_not_utf8 _ _ E) as (r & Hr & ->).
  rewrite (punycode_decode_non_ascii _ (strip_nul_keeps_non_ascii _ Hhigh)) in Hr.
  injection Hr as <-. reflexivity.
Qed.

(** * Further properties of the decoders *)

(** ** Streams with known contents *)

Lemma stream_at_length (b : BytesIO) (l : list byte) :
  stream_at b l -> remaining b = len l /\ (l <> [] -> (position b < length (buffer b))%nat).
Proof.
  unfold stream_at, remaining, len. intros E.
  apply (f_equal (@length byte)) in E as Hlen. rewrite length_drop in Hlen.
  split.
  - destruct (Nat.le_gt_cases (length (buffer b)) (position b)); lia.
  - intros Hne. destruct l; [congruence|]. simpl in Hlen. lia.
Qed.

Lemma stream_at_advance (b : BytesIO) (data rest : list byte) :
  stream_at b (data ++ rest) -> stream_at (advance b (length data)) rest.
Proof.
  unfold stream_at, advance. simpl. intros E.
  rewrite <- drop_drop, E, drop_app_length. reflexivity.
Qed.

(** Reading as many bytes as a known prefix has returns the prefix. *)
Lemma read_exact_at (b : BytesIO) (n : Z) (data rest : list byte) :
  stream_at b (data ++ rest) -> len data = n ->
  read_exact n b = (Return data, advance b (length data)).
Proof.
  intros E Hn.
  destruct (stream_at_length _ _ E) as [Hrem _]. rewrite len_app in Hrem.
  pose proof (len_nonneg data). pose proof (len_nonneg rest).
  rewrite read_exact_returns by lia.
  unfold stream_at in E. rewrite E. subst n. unfold len, advance.
  rewrite Nat2Z.id, take_app_length. reflexivity.
Qed.

Lemma bind_read_exact_at {B} (k : list byte -> M B) (b : BytesIO) (n : Z)
    (data rest : list byte) :
  stream_at b (data ++ rest) -> len data = n ->
  bind (read_exact n) k b = k data (advance b (length data)).
Proof.
  intros E Hn. unfold bind. rewrite (read_exact_at b n data rest E Hn). reflexivity.
Qed.

Lemma bind_lift_return {A B} (a : A) (k : A -> M B) (b : BytesIO) :
  bind (lift (Return a)) k b = k a b.
Proof. reflexivity. Qed.

Lemma advance_advance (b : BytesIO) (j k : nat) :
  advance (advance b j) k = advance b (j + k).
Proof. unfold advance. simpl. f_equal. lia. Qed.

(** ** What [parse_address] returns *)

Lemma unpack_H_range (p : list byte) (v : Z) :
  unpack_H p = Return v -> 0 <= v < 65536.
Proof.
  destruct p as [|hi [|lo [|? ?]]]; try discriminate.
  rewrite unpack_H_two. intros [= <-].
  pose proof (byte_val_range hi). pose proof (byte_val_range lo). lia.
Qed.

Lemma unpack_B_inv (l : list byte) (v : Z) :
  unpack_B l = Return v -> exists n, l = [n] /\ v = byte_val n.
Proof.
  destruct l as [|n [|? ?]]; try discriminate. intros [= <-]. eauto.
Qed.

Lemma stream_at_cons_inv (b : BytesIO) (t : byte) :
  firstn 1 (skipn (position b) (buffer b)) = [t] ->
  stream_at b (t :: skipn (position b + 1) (buffer b)).
Proof.
  unfold stream_at. intros H.
  destruct (skipn (position b) (buffer b)) as [|t' rest] eqn:Hs; [discriminate|].
  injection H as ->. f_equal. rewrite <- drop_drop, Hs. reflexivity.
Qed.

(** Turn the steps of a block that returned into facts about the bytes
    read and the positions reached. *)
Ltac read_steps :=
  repeat match goal with
  | H : read_exact _ _ = (Return _, _) |- _ =>
      apply read_exact_return_inv in H;
      [ let Hd := fresh "Hdata" in let Hl := fresh "Hlen" in
        destruct H as (Hd & -> & Hl);
        unfold len in Hl; rewrite Hd, length_take, length_drop in Hl;
        simpl buffer in *; simpl position in *;
        match type of Hl with
        | Z.of_nat (?k `min` ?m) = _ => assert (k <= m)%nat by lia; clear Hl
        end
      | lia ]
  | H : lift _ _ = (Return _, _) |- _ =>
      apply lift_return_inv in H; destruct H as [H ->]
  | H : unpack_B _ = Return _ |- _ =>
      let n := fresh "n" in let Hn := fresh "Hn" in
      apply unpack_B_inv in H; destruct H as (n & Hn & ->);
      pose proof (byte_val_range n)
  end.

Ltac record_done L :=
  subst; exists L; simpl; unfold advance; cbn [buffer position length] in *;
  repeat split; auto; try lia; try (f_equal; lia).

(** The block returns an address only after reading a whole record: a
    type byte among 1..5, for which the constructor returned, and as many
    bytes as the record of that kind has. *)
Lemma parse_address_try_some (new_AddressType : Z -> result AddressType)
    (b b' : BytesIO) (a : Address) :
  parse_address_try new_AddressType b = (Return (Some a), b') ->
  exists t rest L,
    stream_at b (t :: rest)
    /\ 1 <= byte_val t <= 5
    /\ record_length (t :: rest) = Some L
    /\ (L <= length (t :: rest))%nat
    /\ new_AddressType (byte_val t) = Return (typ a)
    /\ 0 <= port a < 65536
    /\ b' = advance b L.
Proof.
  intros E. unfold parse_address_try in E.
  apply bind_return_inv in E. destruct E as (type_byte & b1 & Hread & E).
  apply bind_return_inv in E. destruct E as (type_id & b2 & Hid & E).
  apply bind_return_inv in E. destruct E as (a_typ & b3 & Htyp & E).
  apply read_exact_return_inv in Hread; [|lia]. destruct Hread as (Hdata & -> & _).
  apply lift_return_inv in Hid. destruct Hid as [Hid ->].
  apply lift_return_inv in Htyp. destruct Htyp as [Htyp ->].
  apply unpack_B_inv in Hid. destruct Hid as (t & -> & ->).
  symmetry in Hdata. change (Z.to_nat 1) with 1%nat in Hdata.
  apply stream_at_cons_inv in Hdata.
  pose proof (f_equal (@length byte) Hdata) as Hrest.
  rewrite length_drop in Hrest. simpl length in Hrest.
  exists t, (skipn (position b + 1) (buffer b)).
  unfold record_length.
  repeat match type of E with
  | (if ?c then _ else _) _ = _ => destruct c eqn:?
  end; try (unfold ret in E; discriminate E).
  - peel E. read_steps. apply unpack_H_range in Hstep2. record_done 7%nat.
  - peel E. read_steps. apply unpack_H_range in Hstep2. record_done 19%nat.
  - peel E. read_steps. apply unpack_H_range in Hstep1. record_done 13%nat.
  - peel E. read_steps. apply unpack_H_range in Hstep1. record_done 38%nat.
  - peel E. read_steps. apply unpack_H_range in Hstep4.
    rewrite Hn in Hdata1. change (Z.to_nat 1) with 1%nat in *.
    destruct (drop (position b + 1) (buffer b)) as [|n' rest'] eqn:Hs;
      [discriminate Hdata1|].
    injection Hdata1 as <-.
    record_done (4 + Z.to_nat (byte_val n))%nat.
Qed.

Lemma record_length_type (t : byte) (rest : list byte) (L : nat) :
  record_length (t :: rest) = Some L -> 1 <= byte_val t <= 5.
Proof.
  unfold record_length.
  repeat match goal with
  | |- context [?x =? ?y] => destruct (Z.eqb_spec x y); [lia|]
  end.
  discriminate.
Qed.

(** X1: [parse_address] returns an address only after consuming one whole
    record.  Nothing is reported; the type byte is among 1..5 and the
    constructor returned the address type for it; the port is an unsigned
    16-bit value; and the stream is exactly the record's length further
    (7, 19, 13 or 38 bytes, or 4 plus the hostname length for DNS), all
    of which was there to read. *)
Theorem parse_address_returns_whole_record
    (new_AddressType : Z -> result AddressType) (b : BytesIO) (a : Address) :
  returned (parse_address new_AddressType b) = Some a ->
  exists t rest L,
    stream_at b (t :: rest)
    /\ 1 <= byte_val t <= 5
    /\ record_length (t :: rest) = Some L
    /\ (L <= length (t :: rest))%nat
    /\ new_AddressType (byte_val t) = Return (typ a)
    /\ 0 <= port a < 65536
    /\ parse_address new_AddressType b = mkOutcome (Some a) (advance b L) None.
Proof.
  unfold parse_address.
  destruct (parse_address_try new_AddressType b) as [[e|r] b'] eqn:E;
    simpl; [discriminate|].
  intros ->.
  destruct (parse_address_try_some _ _ _ _ E)
    as (t & rest & L & H1 & H2 & H3 & H4 & H5 & H6 & ->).
  exists t, rest, L. repeat split; auto; lia.
Qed.

Lemma parse_address_returns_whole_record_witness :
  returned (parse_address AddressType_of_id
              (mkBytesIO [xaa; x01; x7f; x00; x00; x01; x00; x50; xbb] 1))
  = Some (mkAddress (mkAddressType 1 "IPv4") "127.0.0.1" 80)
  /\ exists t rest L,
       stream_at (mkBytesIO [xaa; x01; x7f; x00; x00; x01; x00; x50; xbb] 1) (t :: rest)
       /\ 1 <= byte_val t <= 5
       /\ record_length (t :: rest) = Some L
       /\ (L <= length (t :: rest))%nat
       /\ AddressType_of_id (byte_val t)
          = Return (typ (mkAddress (mkAddressType 1 "IPv4") "127.0.0.1" 80))
       /\ 0 <= port (mkAddress (mkAddressType 1 "IPv4") "127.0.0.1" 80) < 65536
       /\ parse_address AddressType_of_id
            (mkBytesIO [xaa; x01; x7f; x00; x00; x01; x00; x50; xbb] 1)
          = mkOutcome (Some (mkAddress (mkAddressType 1 "IPv4") "127.0.0.1" 80))
              (advance (mkBytesIO [xaa; x01; x7f; x00; x00; x01; x00; x50; xbb] 1) L)
              None.
Proof.
  split; [vm_compute; reflexivity|].
  apply (parse_address_returns_whole_record AddressType_of_id
           (mkBytesIO [xaa; x01; x7f; x00; x00; x01; x00; x50; xbb] 1)).
  vm_compute. reflexivity.
Defined.

(** X3: a record cut short is no address.  When the bytes left in the
    stream start a record of a known kind but are fewer than the record
    needs, [parse_address] returns [None], reports an exception and
    leaves the stream as it was at entry. *)
Theorem parse_address_truncated_record
    (new_AddressType : Z -> result AddressType) (b : BytesIO)
    (l : list byte) (L : nat) :
  stream_at b l ->
  record_length l = Some L ->
  (length l < L)%nat ->
  exists e, parse_address new_AddressType b = mkOutcome None b (Some e).
Proof.
  intros Hat Hlen Hshort.
  destruct (parse_address_try new_AddressType b) as [[e|[a|]] b'] eqn:E.
  - exists e. eapply parse_address_raise. exact E.
  - exfalso.
    destruct (parse_address_try_some _ _ _ _ E)
      as (t & rest & L' & H1 & _ & H3 & H4 & _).
    unfold stream_at in Hat, H1. rewrite Hat in H1.
    rewrite H1 in Hlen, Hshort.
    rewrite Hlen in H3. injection H3 as <-. lia.
  - exfalso.
    destruct (parse_address_try_none _ _ _ E) as [_ (t & Hs & Ht)].
    unfold stream_at in Hat. rewrite Hat in Hs. rewrite Hs in Hlen.
    apply record_length_type in Hlen. lia.
Qed.

Lemma parse_address_truncated_record_witness :
  stream_at (mkBytesIO [x02; x20; x01; x0d; xb8] 0) [x02; x20; x01; x0d; xb8]
  /\ record_length [x02; x20; x01; x0d; xb8] = Some 19%nat
  /\ (length [x02; x20; x01; x0d; xb8] < 19)%nat
  /\ exists e,
       parse_address AddressType_of_id (mkBytesIO [x02; x20; x01; x0d; xb8] 0)
       = mkOutcome None (mkBytesIO [x02; x20; x01; x0d; xb8] 0) (Some e).
Proof.
  assert (H1 : stream_at (mkBytesIO [x02; x20; x01; x0d; xb8] 0)
                 [x02; x20; x01; x0d; xb8]) by reflexivity.
  assert (H2 : record_length [x02; x20; x01; x0d; xb8] = Some 19%nat) by reflexivity.
  assert (H3 : (length [x02; x20; x01; x0d; xb8] < 19)%nat) by (simpl; lia).
  split; [exact H1|]. split; [exact H2|]. split; [exact H3|].
  exact (parse_address_truncated_record AddressType_of_id _ _ _ H1 H2 H3).
Defined.

(** X4: at the end of the stream, or past it, there is no address:
    [parse_address] returns [None], reports that the type byte could not
    be read and leaves the stream as it was. *)
Theorem parse_address_at_end
    (new_AddressType : Z -> result AddressType) (b : BytesIO) :
  (length (buffer b) <= position b)%nat ->
  parse_address new_AddressType b
  = mkOutcome None b (Some (ValueError "Expected 1 bytes, got 0")).
Proof.
  intros Hend.
  apply parse_address_raise with (b' := b).
  unfold parse_address_try, bind, read_exact, read.
  rewrite drop_ge by exact Hend.
  assert (Hn : len (buffer b) - Z.of_nat (position b) <= 0) by (unfold len; lia).
  destruct (Z.ltb_spec (len (buffer b) - Z.of_nat (position b)) 1); [|lia].
  simpl orb. cbv iota.
  destruct (Z.ltb_spec (len (buffer b) - Z.of_nat (position b)) 0).
  - simpl. destruct b as [buf pos]. simpl. rewrite Nat.add_0_r. reflexivity.
  - replace (len (buffer b) - Z.of_nat (position b)) with 0 by lia.
    simpl. destruct b as [buf pos]. simpl. rewrite Nat.add_0_r. reflexivity.
Qed.

Lemma parse_address_at_end_witness :
  (length (buffer (mkBytesIO [x01; x02] 2)) <= position (mkBytesIO [x01; x02] 2))%nat
  /\ parse_address AddressType_of_id (mkBytesIO [x01; x02] 2)
     = mkOutcome None (mkBytesIO [x01; x02] 2)
         (Some (ValueError "Expected 1 bytes, got 0")).
Proof.
  split; [simpl; lia|].
  apply (parse_address_at_end AddressType_of_id (mkBytesIO [x01; x02] 2)).
  simpl. lia.
Defined.

(** X5: [parse_address] never writes to the buffer, never moves the
    position backwards and never moves it past the end of the buffer. *)
Theorem parse_address_stream_bounds
    (new_AddressType : Z -> result AddressType) (b : BytesIO) :
  buffer (stream (parse_address new_AddressType b)) = buffer b
  /\ (position b <= position (stream (parse_address new_AddressType b)))%nat
  /\ (position (stream (parse_address new_AddressType b))
      <= Nat.max (position b) (length (buffer b)))%nat.
Proof.
  destruct (parse_address_try new_AddressType b) as [[e|[a|]] b'] eqn:E.
  - rewrite (parse_address_raise _ _ _ _ E). simpl. repeat split; lia.
  - unfold parse_address. rewrite E. simpl.
    destruct (parse_address_try_some _ _ _ _ E)
      as (t & rest & L & H1 & _ & _ & H4 & _ & _ & ->).
    apply (f_equal (@length byte)) in H1. rewrite length_drop in H1.
    simpl. repeat split; lia.
  - unfold parse_address. rewrite E. simpl.
    destruct (parse_address_try_none _ _ _ E) as [-> (t & Hs & _)].
    apply (f_equal (@length byte)) in Hs. rewrite length_drop in Hs.
    simpl in *. repeat split; lia.
Qed.

(** X2: every way for [parse_address] to return [None].  Either an
    exception was caught: it is reported and the stream is as it was at
    entry.  Or the type byte is outside 1..5 and the constructor returned
    for it: nothing is reported and the stream is one byte further. *)
Theorem parse_address_none_cases
    (new_AddressType : Z -> result AddressType) (b : BytesIO) :
  returned (parse_address new_AddressType b) = None ->
  (exists e, parse_address new_AddressType b = mkOutcome None b (Some e))
  \/ (exists t rest ty,
        stream_at b (t :: rest)
        /\ ~ (1 <= byte_val t <= 5)
        /\ new_AddressType (byte_val t) = Return ty
        /\ parse_address new_AddressType b = mkOutcome None (advance b 1) None).
Proof.
  intros Hnone.
  destruct (parse_address_absent new_AddressType b Hnone)
    as [He | (Hout & t & Hs & Ht)]; [left; exact He | right].
  exists t, (skipn (position b + 1) (buffer b)).
  destruct (new_AddressType (byte_val t)) as [e|ty] eqn:Hctor.
  - exfalso.
    rewrite (parse_address_constructor_raises _ b t _ e Hs Hctor) in Hout.
    discriminate Hout.
  - exists ty. repeat split; auto; lia.
Qed.

Lemma parse_address_none_cases_witness :
  returned (parse_address AddressType_of_id (mkBytesIO [x06; x7f] 0)) = None
  /\ ((exists e, parse_address AddressType_of_id (mkBytesIO [x06; x7f] 0)
                 = mkOutcome None (mkBytesIO [x06; x7f] 0) (Some e))
      \/ (exists t rest ty,
            stream_at (mkBytesIO [x06; x7f] 0) (t :: rest)
            /\ ~ (1 <= byte_val t <= 5)
            /\ AddressType_of_id (byte_val t) = Return ty
            /\ parse_address AddressType_of_id (mkBytesIO [x06; x7f] 0)
               = mkOutcome None (advance (mkBytesIO [x06; x7f] 0) 1) None)).
Proof.
  split; [vm_compute; reflexivity|].
  apply (parse_address_none_cases AddressType_of_id (mkBytesIO [x06; x7f] 0)).
  vm_compute. reflexivity.
Defined.

(** ** Whole records decode *)

(** Read a known prefix off the stream in a block. *)
Ltac read_known H data rest :=
  match type of H with
  | stream_at ?b _ =>
      match goal with
      | |- context [bind (read_exact ?n) ?k b] =>
          rewrite (bind_read_exact_at k b n data rest H eq_refl);
          apply (stream_at_advance b data rest) in H;
          rewrite ?advance_advance in *
      end
  end.

(** X6: an IPv4 record decodes wherever it lies in the stream: after the
    type byte 1, four address bytes and two port bytes give the
    dotted-decimal text of the four bytes and the big-endian port, and
    the stream is seven bytes further. *)
Theorem parse_address_ipv4
    (new_AddressType : Z -> result AddressType) (b : BytesIO)
    (a1 a2 a3 a4 p1 p2 : byte) (rest : list byte) (ty : AddressType) :
  stream_at b (x01 :: a1 :: a2 :: a3 :: a4 :: p1 :: p2 :: rest) ->
  new_AddressType 1 = Return ty ->
  parse_address new_AddressType b
  = mkOutcome
      (Some (mkAddress ty
               (str_of_int (byte_val a1) +:+ "." +:+ str_of_int (byte_val a2) +:+ "."
                +:+ str_of_int (byte_val a3) +:+ "." +:+ str_of_int (byte_val a4))
               (256 * byte_val p1 + byte_val p2)))
      (advance b 7) None.
Proof.
  intros Hat Hctor. unfold parse_address, parse_address_try.
  read_known Hat [x01] (a1 :: a2 :: a3 :: a4 :: p1 :: p2 :: rest).
  cbn [unpack_B]. rewrite bind_lift_return.
  change (byte_val x01) with 1. rewrite Hctor, bind_lift_return.
  change (1 =? 1) with true. cbv iota.
  read_known Hat [a1; a2; a3; a4] (p1 :: p2 :: rest).
  change (IPv4Address_str [a1; a2; a3; a4])
    with (Return (str_of_int (byte_val a1) +:+ "." +:+ str_of_int (byte_val a2) +:+ "."
                  +:+ str_of_int (byte_val a3) +:+ "." +:+ str_of_int (byte_val a4))).
  rewrite bind_lift_return.
  read_known Hat [p1; p2] rest.
  rewrite unpack_H_two, bind_lift_return.
  reflexivity.
Qed.

Lemma parse_address_ipv4_witness :
  stream_at (mkBytesIO [xff; x01; xc0; xa8; x00; x01; x26; x07; xff] 1)
    [x01; xc0; xa8; x00; x01; x26; x07; xff]
  /\ AddressType_of_id 1 = Return (mkAddressType 1 "IPv4")
  /\ parse_address AddressType_of_id
       (mkBytesIO [xff; x01; xc0; xa8; x00; x01; x26; x07; xff] 1)
     = mkOutcome
         (Some (mkAddress (mkAddressType 1 "IPv4")
            (str_of_int (byte_val xc0) +:+ "." +:+ str_of_int (byte_val xa8) +:+ "."
             +:+ str_of_int (byte_val x00) +:+ "." +:+ str_of_int (byte_val x01))
            (256 * byte_val x26 + byte_val x07)))
         (advance (mkBytesIO [xff; x01; xc0; xa8; x00; x01; x26; x07; xff] 1) 7) None.
Proof.
  split; [reflexivity|]. split; [reflexivity|].
  apply (parse_address_ipv4 AddressType_of_id
           (mkBytesIO [xff; x01; xc0; xa8; x00; x01; x26; x07; xff] 1)
           xc0 xa8 x00 x01 x26 x07 [xff] (mkAddressType 1 "IPv4"));
    reflexivity.
Defined.

Ltac read_known_len H data rest Hlen :=
  match type of H with
  | stream_at ?b _ =>
      match goal with
      | |- context [bind (read_exact ?n) ?k b] =>
          rewrite (bind_read_exact_at k b n data rest H Hlen);
          apply (stream_at_advance b data rest) in H;
          rewrite ?advance_advance in *
      end
  end.

(** X7: an IPv6 record decodes wherever it lies in the stream: after the
    type byte 2, sixteen address bytes and two port bytes give the
    bracketed compressed text of the address and the big-endian port, and
    the stream is nineteen bytes further. *)
Theorem parse_address_ipv6
    (new_AddressType : Z -> result AddressType) (b : BytesIO)
    (raw : list byte) (p1 p2 : byte) (rest : list byte) (ty : AddressType) :
  stream_at b (x02 :: raw ++ p1 :: p2 :: rest) ->
  length raw = 16%nat ->
  new_AddressType 2 = Return ty ->
  parse_address new_AddressType b
  = mkOutcome
      (Some (mkAddress ty
               ("[" +:+ str_join ":" (compress_hextets (hextets_of raw)) +:+ "]")
               (256 * byte_val p1 + byte_val p2)))
      (advance b 19) None.
Proof.
  intros Hat Hraw Hctor. unfold parse_address, parse_address_try.
  read_known Hat [x02] (raw ++ p1 :: p2 :: rest).
  cbn [unpack_B]. rewrite bind_lift_return.
  change (byte_val x02) with 2. rewrite Hctor, bind_lift_return.
  change (2 =? 1) with false. change (2 =? 2) with true. cbv iota.
  assert (Hlen : len raw = 16) by (unfold len; rewrite Hraw; reflexivity).
  read_known_len Hat raw (p1 :: p2 :: rest) Hlen.
  unfold IPv6Address_str at 1. rewrite Hraw in *. change (16 =? 16)%nat with true. cbv iota.
  rewrite bind_lift_return.
  read_known Hat [p1; p2] rest.
  rewrite unpack_H_two, bind_lift_return.
  reflexivity.
Qed.

Lemma parse_address_ipv6_witness :
  stream_at (mkBytesIO (x02 :: (repeat x00 15 ++ [x01]) ++ [x26; x07]) 0)
    (x02 :: (repeat x00 15 ++ [x01]) ++ x26 :: x07 :: [])
  /\ length (repeat x00 15 ++ [x01]) = 16%nat
  /\ AddressType_of_id 2 = Return (mkAddressType 2 "IPv6")
  /\ parse_address AddressType_of_id
       (mkBytesIO (x02 :: (repeat x00 15 ++ [x01]) ++ [x26; x07]) 0)
     = mkOutcome
         (Some (mkAddress (mkAddressType 2 "IPv6")
            ("[" +:+ str_join ":" (compress_hextets (hextets_of (repeat x00 15 ++ [x01])))
             +:+ "]")
            (256 * byte_val x26 + byte_val x07)))
         (advance (mkBytesIO (x02 :: (repeat x00 15 ++ [x01]) ++ [x26; x07]) 0) 19) None.
Proof.
  split; [reflexivity|]. split; [reflexivity|]. split; [reflexivity|].
  apply (parse_address_ipv6 AddressType_of_id
           (mkBytesIO (x02 :: (repeat x00 15 ++ [x01]) ++ [x26; x07]) 0)
           (repeat x00 15 ++ [x01]) x26 x07 [] (mkAddressType 2 "IPv6"));
    reflexivity.
Defined.

(** X8: a Tor record decodes wherever it lies in the stream: after the
    type byte 3 and a 10-byte key, or the type byte 4 and a 35-byte key,
    and two port bytes, the text is the Base32 text of the key followed
    by [".onion"], the port is big-endian, and the stream is the key
    length plus three bytes further. *)
Theorem parse_address_tor
    (new_AddressType : Z -> result AddressType) (b : BytesIO)
    (t : byte) (key : list byte) (p1 p2 : byte) (rest : list byte)
    (ty : AddressType) :
  stream_at b (t :: key ++ p1 :: p2 :: rest) ->
  (t = x03 /\ length key = 10%nat) \/ (t = x04 /\ length key = 35%nat) ->
  new_AddressType (byte_val t) = Return ty ->
  parse_address new_AddressType b
  = mkOutcome
      (Some (mkAddress ty (to_base_32 key +:+ ".onion")
               (256 * byte_val p1 + byte_val p2)))
      (advance b (3 + length key)) None.
Proof.
  intros Hat Hkind Hctor. unfold parse_address, parse_address_try.
  read_known Hat [t] (key ++ p1 :: p2 :: rest).
  cbn [unpack_B]. rewrite bind_lift_return.
  rewrite Hctor, bind_lift_return.
  destruct Hkind as [[-> Hkey] | [-> Hkey]].
  - change (byte_val x03) with 3.
    change (3 =? 1) with false. change (3 =? 2) with false.
    change (3 =? 3) with true. cbv iota.
    assert (Hlen : len key = 10) by (unfold len; rewrite Hkey; reflexivity).
    read_known_len Hat key (p1 :: p2 :: rest) Hlen.
    read_known Hat [p1; p2] rest.
    rewrite unpack_H_two, bind_lift_return. unfold ret.
    f_equal. unfold advance. f_equal. simpl length. lia.
  - change (byte_val x04) with 4.
    change (4 =? 1) with false. change (4 =? 2) with false.
    change (4 =? 3) with false. change (4 =? 4) with true. cbv iota.
    assert (Hlen : len key = 35) by (unfold len; rewrite Hkey; reflexivity).
    read_known_len Hat key (p1 :: p2 :: rest) Hlen.
    read_known Hat [p1; p2] rest.
    rewrite unpack_H_two, bind_lift_return. unfold ret.
    f_equal. unfold advance. f_equal. simpl length. lia.
Qed.

Lemma parse_address_tor_witness :
  stream_at
    (mkBytesIO (x03 :: [x00; x01; x02; x03; x04; x05; x06; x07; x08; x09]
                ++ [x26; x07]) 0)
    (x03 :: [x00; x01; x02; x03; x04; x05; x06; x07; x08; x09] ++ x26 :: x07 :: [])
  /\ ((x03 = x03 /\ length [x00; x01; x02; x03; x04; x05; x06; x07; x08; x09] = 10%nat)
      \/ (x03 = x04
          /\ length [x00; x01; x02; x03; x04; x05; x06; x07; x08; x09] = 35%nat))
  /\ AddressType_of_id (byte_val x03) = Return (mkAddressType 3 "TorV2")
  /\ parse_address AddressType_of_id
       (mkBytesIO (x03 :: [x00; x01; x02; x03; x04; x05; x06; x07; x08; x09]
                   ++ [x26; x07]) 0)
     = mkOutcome
         (Some (mkAddress (mkAddressType 3 "TorV2")
            (to_base_32 [x00; x01; x02; x03; x04; x05; x06; x07; x08; x09] +:+ ".onion")
            (256 * byte_val x26 + byte_val x07)))
         (advance
            (mkBytesIO (x03 :: [x00; x01; x02; x03; x04; x05; x06; x07; x08; x09]
                        ++ [x26; x07]) 0)
            (3 + length [x00; x01; x02; x03; x04; x05; x06; x07; x08; x09])) None.
Proof.
  split; [reflexivity|]. split; [left; split; reflexivity|].
  split; [reflexivity|].
  apply (parse_address_tor AddressType_of_id
           (mkBytesIO (x03 :: [x00; x01; x02; x03; x04; x05; x06; x07; x08; x09]
                       ++ [x26; x07]) 0)
           x03 [x00; x01; x02; x03; x04; x05; x06; x07; x08; x09] x26 x07 []
           (mkAddressType 3 "TorV2")).
  - reflexivity.
  - left. split; reflexivity.
  - reflexivity.
Defined.

(** X9: a DNS record decodes wherever it lies in the stream: after the
    type byte 5, a length byte, as many ASCII hostname bytes as it says
    (none, when it is 0) and two port bytes, the text is the hostname,
    the port is big-endian, and the stream is four bytes plus the
    hostname further. *)
Theorem parse_address_dns_record
    (new_AddressType : Z -> result AddressType) (b : BytesIO)
    (n : byte) (host : list byte) (p1 p2 : byte) (rest : list byte)
    (ty : AddressType) :
  stream_at b (x05 :: n :: host ++ p1 :: p2 :: rest) ->
  len host = byte_val n ->
  forallb is_ascii_byte host = true ->
  new_AddressType 5 = Return ty ->
  parse_address new_AddressType b
  = mkOutcome
      (Some (mkAddress ty (string_of_list_ascii (map ascii_of_byte host))
               (256 * byte_val p1 + byte_val p2)))
      (advance b (4 + length host)) None.
Proof.
  intros Hat Hlen Hascii Hctor. unfold parse_address, parse_address_try.
  read_known Hat [x05] (n :: host ++ p1 :: p2 :: rest).
  cbn [unpack_B]. rewrite bind_lift_return.
  change (byte_val x05) with 5. rewrite Hctor, bind_lift_return.
  change (5 =? 1) with false. change (5 =? 2) with false.
  change (5 =? 3) with false. change (5 =? 4) with false.
  change (5 =? 5) with true. cbv iota.
  read_known Hat [n] (host ++ p1 :: p2 :: rest).
  cbn [unpack_B]. rewrite bind_lift_return.
  read_known_len Hat host (p1 :: p2 :: rest) Hlen.
  unfold decode_ascii at 1. rewrite Hascii, bind_lift_return.
  read_known Hat [p1; p2] rest.
  rewrite unpack_H_two, bind_lift_return. unfold ret.
  f_equal. unfold advance. f_equal. simpl length. lia.
Qed.

Lemma parse_address_dns_record_witness :
  stream_at (mkBytesIO (x05 :: x03 :: [x61; x2e; x62] ++ [x26; x07; xff]) 0)
    (x05 :: x03 :: [x61; x2e; x62] ++ x26 :: x07 :: [xff])
  /\ len [x61; x2e; x62] = byte_val x03
  /\ forallb is_ascii_byte [x61; x2e; x62] = true
  /\ AddressType_of_id 5 = Return (mkAddressType 5 "DNS")
  /\ parse_address AddressType_of_id
       (mkBytesIO (x05 :: x03 :: [x61; x2e; x62] ++ [x26; x07; xff]) 0)
     = mkOutcome
         (Some (mkAddress (mkAddressType 5 "DNS")
            (string_of_list_ascii (map ascii_of_byte [x61; x2e; x62]))
            (256 * byte_val x26 + byte_val x07)))
         (advance (mkBytesIO (x05 :: x03 :: [x61; x2e; x62] ++ [x26; x07; xff]) 0)
            (4 + length [x61; x2e; x62])) None.
Proof.
  split; [reflexivity|]. split; [reflexivity|]. split; [reflexivity|].
  split; [reflexivity|].
  apply (parse_address_dns_record AddressType_of_id
           (mkBytesIO (x05 :: x03 :: [x61; x2e; x62] ++ [x26; x07; xff]) 0)
           x03 [x61; x2e; x62] x26 x07 [xff] (mkAddressType 5 "DNS"));
    reflexivity.
Defined.

(** X10: a DNS record whose hostname holds a byte above 0x7F is no
    address: [parse_address] returns [None], reports the ASCII decoding
    error and leaves the stream as it was at entry, whatever follows the
    hostname. *)
Theorem parse_address_dns_not_ascii
    (new_AddressType : Z -> result AddressType) (b : BytesIO)
    (n : byte) (host rest : list byte) (ty : AddressType) :
  stream_at b (x05 :: n :: host ++ rest) ->
  len host = byte_val n ->
  forallb is_ascii_byte host = false ->
  new_AddressType 5 = Return ty ->
  parse_address new_AddressType b
  = mkOutcome None b (Some (UnicodeDecodeError "ascii")).
Proof.
  intros Hat Hlen Hascii Hctor.
  apply parse_address_raise with (b' := advance b (2 + length host)).
  unfold parse_address_try.
  read_known Hat [x05] (n :: host ++ rest).
  cbn [unpack_B]. rewrite bind_lift_return.
  change (byte_val x05) with 5. rewrite Hctor, bind_lift_return.
  change (5 =? 1) with false. change (5 =? 2) with false.
  change (5 =? 3) with false. change (5 =? 4) with false.
  change (5 =? 5) with true. cbv iota.
  read_known Hat [n] (host ++ rest).
  cbn [unpack_B]. rewrite bind_lift_return.
  read_known_len Hat host rest Hlen.
  unfold decode_ascii at 1. rewrite Hascii.
  unfold bind, lift. f_equal.
Qed.

Lemma parse_address_dns_not_ascii_witness :
  stream_at (mkBytesIO (x05 :: x02 :: [x61; xe9] ++ [x26; x07]) 0)
    (x05 :: x02 :: [x61; xe9] ++ [x26; x07])
  /\ len [x61; xe9] = byte_val x02
  /\ forallb is_ascii_byte [x61; xe9] = false
  /\ AddressType_of_id 5 = Return (mkAddressType 5 "DNS")
  /\ parse_address AddressType_of_id
       (mkBytesIO (x05 :: x02 :: [x61; xe9] ++ [x26; x07]) 0)
     = mkOutcome None (mkBytesIO (x05 :: x02 :: [x61; xe9] ++ [x26; x07]) 0)
         (Some (UnicodeDecodeError "ascii")).
Proof.
  split; [reflexivity|]. split; [reflexivity|]. split; [reflexivity|].
  split; [reflexivity|].
  apply (parse_address_dns_not_ascii AddressType_of_id
           (mkBytesIO (x05 :: x02 :: [x61; xe9] ++ [x26; x07]) 0)
           x02 [x61; xe9] [x26; x07] (mkAddressType 5 "DNS"));
    reflexivity.
Defined.

(** ** Stripping a padded text *)

Lemma lstrip_repeat_app {A} (p : A -> bool) (c : A) (k : nat) (l : list A) :
  p c = true -> lstrip p (repeat c k ++ l) = lstrip p l.
Proof. intros Hc. induction k as [|k IH]; simpl; [reflexivity|]. rewrite Hc. exact IH. Qed.

Lemma lstrip_id {A} (p : A -> bool) (l : list A) :
  (forall a, head l = Some a -> p a = false) -> lstrip p l = l.
Proof. destruct l as [|a l]; [reflexivity|]. intros H. simpl. rewrite (H a eq_refl). reflexivity. Qed.

Lemma rev_repeat_same {A} (c : A) (k : nat) : rev (repeat c k) = repeat c k.
Proof.
  induction k as [|k IH]; [reflexivity|].
  simpl. rewrite IH. clear IH.
  induction k as [|k IH]; [reflexivity|]. simpl. rewrite IH. reflexivity.
Qed.

(** A text that neither starts nor ends with a stripped character comes
    back from [strip] whatever padding of stripped characters follows
    it. *)
Lemma strip_padded {A} (p : A -> bool) (u : list A) (c : A) (k : nat) :
  p c = true ->
  (forall a, head u = Some a -> p a = false) ->
  (forall a, last u = Some a -> p a = false) ->
  strip p (u ++ repeat c k) = u.
Proof.
  intros Hc Hhead Hlast. unfold strip, rstrip.
  destruct u as [|a u].
  - simpl. rewrite <- (app_nil_r (repeat c k)), lstrip_repeat_app by exact Hc.
    reflexivity.
  - rewrite (lstrip_id p ((a :: u) ++ repeat c k)) by (simpl; exact Hhead).
    rewrite rev_app_distr, rev_repeat_same, lstrip_repeat_app by exact Hc.
    rewrite lstrip_id; [apply rev_involutive|].
    intros x Hx. apply Hlast. rewrite <- last_rev_head, rev_involutive in Hx. exact Hx.
Qed.

(** ** Base32 text *)

Lemma b32_char_upper (x : Z) :
  is_b32_lower (ascii_lower (b32_char (Z.land x 31))) = true
  /\ Ascii.eqb "=" (b32_char (Z.land x 31)) = false.
Proof.
  assert (H : 0 <= Z.land x 31 < 32).
  { change 31 with (Z.ones 5). rewrite Z.land_ones by lia.
    apply Z.mod_pos_bound. reflexivity. }
  set (v := Z.land x 31) in *. clearbody v.
  assert (Hv : v = Z.of_nat (Z.to_nat v)) by lia.
  assert (Hn : (Z.to_nat v < 32)%nat) by lia.
  rewrite Hv. clear Hv H. generalize dependent (Z.to_nat v). intros n Hn.
  do 32 (destruct n as [|n]; [split; reflexivity|]). lia.
Qed.

Lemma b32_quantum_upper (b0 b1 b2 b3 b4 : byte) :
  length (b32_quantum b0 b1 b2 b3 b4) = 8%nat
  /\ Forall (fun c => is_b32_lower (ascii_lower c) = true /\ Ascii.eqb "=" c = false)
       (b32_quantum b0 b1 b2 b3 b4).
Proof.
  unfold b32_quantum. simpl map. split; [reflexivity|].
  repeat constructor; apply b32_char_upper.
Qed.

Lemma Forall_firstn {A} (P : A -> Prop) (n : nat) (l : list A) :
  Forall P l -> Forall P (firstn n l).
Proof. apply Forall_take. Qed.

(** The Base32 text before stripping: characters of the alphabet, as
    many as the bits need, then padding. *)
Lemma b32encode_chars_shape (n : nat) :
  forall s : list byte,
    (length s <= n)%nat ->
    exists body k,
      b32encode_chars s = body ++ repeat "="%char k
      /\ (8 * length s <= 5 * length body < 8 * length s + 5)%nat
      /\ Forall (fun c => is_b32_lower (ascii_lower c) = true
                          /\ Ascii.eqb "=" c = false) body.
Proof.
  induction n as [|n IH]; intros s Hlen.
  - destruct s; [|simpl in Hlen; lia]. exists [], 0%nat. simpl. repeat split; auto; lia.
  - destruct s as [|b0 [|b1 [|b2 [|b3 [|b4 rest]]]]].
    + exists [], 0%nat. simpl. repeat split; auto; lia.
    + destruct (b32_quantum_upper b0 x00 x00 x00 x00) as [Hq Hf].
      exists (firstn 2 (b32_quantum b0 x00 x00 x00 x00)), 6%nat.
      rewrite length_take, Hq. simpl length.
      repeat split; auto using Forall_firstn; lia.
    + destruct (b32_quantum_upper b0 b1 x00 x00 x00) as [Hq Hf].
      exists (firstn 4 (b32_quantum b0 b1 x00 x00 x00)), 4%nat.
      rewrite length_take, Hq. simpl length.
      repeat split; auto using Forall_firstn; lia.
    + destruct (b32_quantum_upper b0 b1 b2 x00 x00) as [Hq Hf].
      exists (firstn 5 (b32_quantum b0 b1 b2 x00 x00)), 3%nat.
      rewrite length_take, Hq. simpl length.
      repeat split; auto using Forall_firstn; lia.
    + destruct (b32_quantum_upper b0 b1 b2 b3 x00) as [Hq Hf].
      exists (firstn 7 (b32_quantum b0 b1 b2 b3 x00)), 1%nat.
      rewrite length_take, Hq. simpl length.
      repeat split; auto using Forall_firstn; lia.
    + destruct (IH rest) as (body & k & E & Hb & Hf); [simpl in Hlen; lia|].
      destruct (b32_quantum_upper b0 b1 b2 b3 b4) as [Hq Hq'].
      exists (b32_quantum b0 b1 b2 b3 b4 ++ body), k.
      cbn [b32encode_chars]. rewrite E, length_app, Hq, <- app_assoc.
      simpl length.
      repeat split; try lia; auto using Forall_app_2.
Qed.

Lemma str_lower_of_list (l : list ascii) :
  str_lower (string_of_list_ascii l) = string_of_list_ascii (map ascii_lower l).
Proof. induction l as [|c l IH]; [reflexivity|]. simpl. rewrite IH. reflexivity. Qed.

Lemma string_length_of_list (l : list ascii) :
  String.length (string_of_list_ascii l) = length l.
Proof. induction l as [|c l IH]; [reflexivity|]. simpl. rewrite IH. reflexivity. Qed.

Lemma to_base_32_body (addr : list byte) :
  exists body,
    to_base_32 addr = string_of_list_ascii (map ascii_lower body)
    /\ (8 * length addr <= 5 * length body < 8 * length addr + 5)%nat
    /\ Forall (fun c => is_b32_lower (ascii_lower c) = true
                        /\ Ascii.eqb "=" c = false) body.
Proof.
  destruct (b32encode_chars_shape (length addr) addr (Nat.le_refl _))
    as (body & k & E & Hlen & Hf).
  exists body. split; [|split; assumption].
  unfold to_base_32, str_strip, b32encode.
  rewrite list_ascii_of_string_of_list_ascii, E.
  rewrite strip_padded; [apply str_lower_of_list | reflexivity | |].
  - intros a Ha. apply head_Some_elem_of in Ha.
    rewrite Forall_forall in Hf. apply Hf, Ha.
  - intros a Ha. apply last_Some_elem_of in Ha.
    rewrite Forall_forall in Hf. apply Hf, Ha.
Qed.

(** X11: the Base32 text of [to_base_32] has no padding and no capitals:
    every character is a lowercase letter or a digit from 2 to 7, and
    there are as many as the bits of the input need, eight for each five
    bytes rounded up; so a 10-byte Tor v2 key gives 16 characters and a
    35-byte Tor v3 key 56. *)
Theorem to_base_32_alphabet (addr : list byte) :
  forallb is_b32_lower (list_ascii_of_string (to_base_32 addr)) = true
  /\ (8 * length addr <= 5 * String.length (to_base_32 addr) < 8 * length addr + 5)%nat
  /\ (length addr = 10%nat -> String.length (to_base_32 addr) = 16%nat)
  /\ (length addr = 35%nat -> String.length (to_base_32 addr) = 56%nat).
Proof.
  destruct (to_base_32_body addr) as (body & -> & Hlen & Hf).
  rewrite list_ascii_of_string_of_list_ascii, string_length_of_list, length_map.
  split; [|repeat split; lia].
  apply forallb_forall. intros c Hc. apply in_map_iff in Hc.
  destruct Hc as (c' & <- & Hc'). rewrite Forall_forall in Hf.
  apply Hf, list_elem_of_In, Hc'.
Qed.

Lemma to_base_32_alphabet_witness :
  length (repeat xff 10) = 10%nat
  /\ String.length (to_base_32 (repeat xff 10)) = 16%nat.
Proof.
  split; [reflexivity|].
  apply (to_base_32_alphabet (repeat xff 10)). reflexivity.
Defined.

(** ** Short channel ids, again *)

(** A field of [width] bits at [shift] reads the same bits of [scid] and
    of its low 64 bits. *)
Lemma scid_field_low64 (scid shift width : Z) :
  0 <= shift -> 0 <= width -> shift + width <= 64 ->
  Z.land (Z.shiftr (scid mod 2 ^ 64) shift) (Z.ones width)
  = Z.land (Z.shiftr scid shift) (Z.ones width).
Proof.
  intros Hs Hw Hsw. apply Z.bits_inj'. intros n Hn.
  rewrite !Z.land_spec, !Z.shiftr_spec by lia.
  destruct (Z.ltb_spec n width).
  - rewrite Z.mod_pow2_bits_low by lia. reflexivity.
  - rewrite Z.ones_spec_high by lia. rewrite !andb_false_r. reflexivity.
Qed.

(** X12: [get_scid_from_int] reads the low 64 bits of its argument and
    nothing else: any integer, negative or wider than 64 bits, gives the
    text of its residue modulo [2^64]. *)
Theorem get_scid_from_int_low64 (scid_int : Z) :
  get_scid_from_int scid_int = get_scid_from_int (scid_int mod 2 ^ 64).
Proof.
  unfold get_scid_from_int.
  change 0xFFFFFF with (Z.ones 24). change 0xFFFF with (Z.ones 16).
  rewrite (scid_field_low64 scid_int 40 24), (scid_field_low64 scid_int 16 24) by lia.
  pose proof (scid_field_low64 scid_int 0 16) as H0.
  rewrite !Z.shiftr_0_r in H0. rewrite H0 by lia.
  reflexivity.
Qed.

(** The three fields of a 64-bit [scid] pack back into it. *)
Lemma scid_repack (scid : Z) :
  0 <= scid < 2 ^ 64 ->
  Z.land (Z.shiftr scid 40) 0xFFFFFF * 2 ^ 40
  + Z.land (Z.shiftr scid 16) 0xFFFFFF * 2 ^ 16
  + Z.land scid 0xFFFF = scid.
Proof.
  intros Hscid.
  change 0xFFFFFF with (Z.ones 24); change 0xFFFF with (Z.ones 16).
  rewrite !land_ones_mod, !Z.shiftr_div_pow2 by lia.
  assert (H40 : scid / 2 ^ 40 < 2 ^ 24) by (apply Z.div_lt_upper_bound; lia).
  assert (H40' : 0 <= scid / 2 ^ 40) by (apply Z.div_pos; lia).
  rewrite (Z.mod_small (scid / 2 ^ 40)) by lia.
  pose proof (Z.div_mod scid (2 ^ 16) ltac:(lia)) as E16.
  pose proof (Z.div_mod (scid / 2 ^ 16) (2 ^ 24) ltac:(lia)) as E24.
  rewrite Z.div_div in E24 by lia.
  change (2 ^ 16 * 2 ^ 24) with (2 ^ 40) in E24.
  lia.
Qed.

Lemma land_mask_nonneg (a mask : Z) : 0 <= mask -> 0 <= Z.land a mask.
Proof. intros H. apply Z.land_nonneg. right. exact H. Qed.

(** Decimal numerals of different integers differ. *)
Lemma str_of_int_inj (a b : Z) : str_of_int a = str_of_int b -> a = b.
Proof.
  unfold str_of_int. intros E.
  assert (Hnn : forall z, Z.to_int z <> Decimal.Pos Decimal.Nil
                          /\ Z.to_int z <> Decimal.Neg Decimal.Nil).
  { intros [|p|p]; simpl; split; try discriminate; intros [= H];
      exact (DecimalPos.Unsigned.to_uint_nonnil p H). }
  apply DecimalZ.to_int_inj.
  apply (f_equal NilZero.int_of_string) in E.
  rewrite !NilZero.isi in E by apply Hnn.
  injection E as E. exact E.
Qed.

Lemma uint_digits (d : Decimal.uint) :
  forallb is_digit (list_ascii_of_string (NilEmpty.string_of_uint d)) = true.
Proof. induction d; simpl; auto. Qed.

(** The numeral of a natural number is made of digits. *)
Lemma str_of_int_digits (n : Z) :
  0 <= n -> forallb is_digit (list_ascii_of_string (str_of_int n)) = true.
Proof.
  intros Hn. unfold str_of_int.
  destruct n as [|p|p]; [reflexivity| |lia].
  simpl. unfold NilZero.string_of_uint.
  destruct (Pos.to_uint p); try reflexivity; apply uint_digits.
Qed.

(** Two texts that start with digits up to an ["x"] agree on the digits
    and on what follows the ["x"]. *)
Lemma split_at_x (u u' r r' : string) :
  forallb is_digit (list_ascii_of_string u) = true ->
  forallb is_digit (list_ascii_of_string u') = true ->
  u +:+ "x" +:+ r = u' +:+ "x" +:+ r' ->
  u = u' /\ r = r'.
Proof.
  revert u'. induction u as [|c u IH]; intros [|c' u'] Hu Hu' E; simpl in *.
  - injection E as E. auto.
  - injection E as <- _. discriminate Hu'.
  - injection E as -> _. discriminate Hu.
  - injection E as <- E.
    apply andb_prop in Hu, Hu'. destruct Hu as [_ Hu], Hu' as [_ Hu'].
    destruct (IH u' Hu Hu' E) as [-> ->]. auto.
Qed.

(** X13: on unsigned 64-bit integers [get_scid_from_int] is one-to-one:
    two short channel ids with the same text are the same integer. *)
Theorem get_scid_from_int_inj (a b : Z) :
  0 <= a < 2 ^ 64 -> 0 <= b < 2 ^ 64 ->
  get_scid_from_int a = get_scid_from_int b -> a = b.
Proof.
  intros Ha Hb E. unfold get_scid_from_int in E. cbv zeta in E.
  apply split_at_x in E;
    [|apply str_of_int_digits, land_mask_nonneg; lia ..].
  destruct E as [E1 E].
  apply split_at_x in E;
    [|apply str_of_int_digits, land_mask_nonneg; lia ..].
  destruct E as [E2 E3].
  apply str_of_int_inj in E1, E2, E3.
  rewrite <- (scid_repack a Ha), <- (scid_repack b Hb), E1, E2, E3.
  reflexivity.
Qed.

Lemma get_scid_from_int_inj_witness :
  0 <= 0x0a2b3c0000010002 < 2 ^ 64
  /\ 0 <= 666428 * 2 ^ 40 + 1 * 2 ^ 16 + 2 < 2 ^ 64
  /\ get_scid_from_int 0x0a2b3c0000010002
     = get_scid_from_int (666428 * 2 ^ 40 + 1 * 2 ^ 16 + 2)
  /\ 0x0a2b3c0000010002 = 666428 * 2 ^ 40 + 1 * 2 ^ 16 + 2.
Proof.
  assert (H1 : 0 <= 0x0a2b3c0000010002 < 2 ^ 64) by lia.
  assert (H2 : 0 <= 666428 * 2 ^ 40 + 1 * 2 ^ 16 + 2 < 2 ^ 64) by lia.
  assert (H3 : get_scid_from_int 0x0a2b3c0000010002
               = get_scid_from_int (666428 * 2 ^ 40 + 1 * 2 ^ 16 + 2))
    by (vm_compute; reflexivity).
  split; [exact H1|]. split; [exact H2|]. split; [exact H3|].
  exact (get_scid_from_int_inj _ _ H1 H2 H3).
Defined.

(** ** Aliases, again *)

(** X14: [decode_alias] has two outcomes only: the NUL-stripped text of
    bytes that are UTF-8, and the hexadecimal text of bytes that are
    not.  The Punycode attempt never supplies the result: bytes that are
    not UTF-8 hold a byte above 0x7F, on which the Punycode codec
    raises. *)
Theorem decode_alias_utf8_or_hex (alias_bytes : list byte) :
  decode_alias alias_bytes
  = Some (Return (match utf8_decode alias_bytes with
                  | Return s => strip (Z.eqb 0) s
                  | Raise _ => pystr_of_string (bytes_hex alias_bytes)
                  end)).
Proof.
  destruct (utf8_decode alias_bytes) as [e|s] eqn:E.
  - apply (decode_alias_not_utf8_is_hex _ e E).
  - apply decode_alias_utf8. exact E.
Qed.

Lemma byte_val_zero (b : byte) : byte_val b = 0 -> b = x00.
Proof. destruct b; intros H; try reflexivity; discriminate H. Qed.

Lemma forallb_repeat {A} (p : A -> bool) (c : A) (k : nat) :
  p c = true -> forallb p (repeat c k) = true.
Proof. intros Hc. induction k as [|k IH]; simpl; [reflexivity|]. rewrite Hc, IH. reflexivity. Qed.

Lemma head_map_inv {A B} (f : A -> B) (l : list A) (y : B) :
  head (map f l) = Some y -> exists x, head l = Some x /\ y = f x.
Proof. destruct l as [|x l]; [discriminate|]. simpl. intros [= <-]. eauto. Qed.

Lemma last_map_inv {A B} (f : A -> B) (l : list A) (y : B) :
  last (map f l) = Some y -> exists x, last l = Some x /\ y = f x.
Proof.
  intros H.
  rewrite <- (rev_involutive (map f l)), last_rev_head, <- map_rev in H.
  apply head_map_inv in H. destruct H as (x & Hx & ->).
  exists x. split; [|reflexivity].
  rewrite <- (rev_involutive l), last_rev_head. exact Hx.
Qed.

(** X15: a zero-padded ASCII alias reads back as written: when the text
    is ASCII and neither starts nor ends with a NUL, [decode_alias] of
    the text followed by any number of NUL bytes is the text. *)
Theorem decode_alias_ascii_padded (text : list byte) (k : nat) :
  forallb is_ascii_byte text = true ->
  head text <> Some x00 ->
  last text <> Some x00 ->
  decode_alias (text ++ repeat x00 k) = Some (Return (map byte_val text)).
Proof.
  intros Hascii Hhead Hlast.
  assert (Hall : forallb is_ascii_byte (text ++ repeat x00 k) = true).
  { rewrite forallb_app, Hascii. apply forallb_repeat. reflexivity. }
  rewrite (decode_alias_utf8 _ _ (utf8_decode_ascii_bytes _ Hall)).
  rewrite map_app, map_repeat. change (byte_val x00) with 0.
  rewrite strip_padded; [reflexivity | reflexivity | |].
  - intros a Ha. apply head_map_inv in Ha. destruct Ha as (x & Hx & ->).
    destruct (Z.eqb_spec 0 (byte_val x)) as [E|]; [|reflexivity].
    symmetry in E. apply byte_val_zero in E. subst x. contradiction.
  - intros a Ha. apply last_map_inv in Ha. destruct Ha as (x & Hx & ->).
    destruct (Z.eqb_spec 0 (byte_val x)) as [E|]; [|reflexivity].
    symmetry in E. apply byte_val_zero in E. subst x. contradiction.
Qed.

Lemma decode_alias_ascii_padded_witness :
  forallb is_ascii_byte [x61; x00; x62] = true
  /\ head [x61; x00; x62] <> Some x00
  /\ last [x61; x00; x62] <> Some x00
  /\ decode_alias ([x61; x00; x62] ++ repeat x00 29)
     = Some (Return (map byte_val [x61; x00; x62])).
Proof.
  assert (H1 : forallb is_ascii_byte [x61; x00; x62] = true) by reflexivity.
  assert (H2 : head [x61; x00; x62] <> Some x00) by discriminate.
  assert (H3 : last [x61; x00; x62] <> Some x00) by discriminate.
  split; [exact H1|]. split; [exact H2|]. split; [exact H3|].
  exact (decode_alias_ascii_padded [x61; x00; x62] 29 H1 H2 H3).
Defined.

(** ** The stripper's error, and consecutive reads *)

(** X16: [strip_known_message_type] raises on buffers shorter than two
    bytes and on no other: the exception is a [ValueError] that quotes
    the length check; any longer buffer comes back whole or without its
    first two bytes. *)
Theorem strip_known_message_type_outcomes (L C : gset Z) (data : list byte) :
  (len data < 2 ->
   strip_known_message_type L C data
   = Raise (ValueError
       "Failed to strip known message type: Input data is too short to contain a message type prefix."))
  /\ (2 <= len data ->
      exists r, strip_known_message_type L C data = Return r
                /\ (r = data \/ (r = slice_from 2 data /\ len r = len data - 2))).
Proof.
  split.
  - intros Hshort. unfold strip_known_message_type, strip_known_message_type_try.
    destruct (Z.ltb_spec (len data) 2); [reflexivity | lia].
  - intros Hlong. destruct (two_bytes_inv data Hlong) as (hi & lo & rest & ->).
    rewrite strip_known_message_type_cons.
    destruct (decide _); eexists; split; try reflexivity; [right | left; reflexivity].
    split; [reflexivity|]. rewrite !len_cons. lia.
Qed.

Lemma strip_known_message_type_outcomes_witness :
  len (@nil byte) < 2
  /\ strip_known_message_type bolt7_gossip_types no_types []
     = Raise (ValueError
         "Failed to strip known message type: Input data is too short to contain a message type prefix.").
Proof.
  split; [unfold len; simpl; lia|].
  apply (strip_known_message_type_outcomes bolt7_gossip_types no_types []).
  unfold len. simpl. lia.
Defined.

Lemma remaining_advance (b : BytesIO) (n : nat) :
  Z.of_nat n <= remaining b -> remaining (advance b n) = remaining b - Z.of_nat n.
Proof. unfold remaining, advance, len. simpl. lia. Qed.

(** X17: two reads in a row are one read: when [n + m] bytes remain,
    [read_exact n] followed by [read_exact m] returns, joined, the bytes
    that [read_exact (n + m)] returns, and leaves the same stream. *)
Theorem read_exact_consecutive (b : BytesIO) (n m : Z) :
  0 <= n -> 0 <= m -> n + m <= remaining b ->
  bind (read_exact n) (fun d1 => bind (read_exact m) (fun d2 => ret (d1 ++ d2))) b
  = read_exact (n + m) b.
Proof.
  intros Hn Hm Hrem. unfold bind.
  rewrite (read_exact_returns b n), (read_exact_returns b (n + m)) by lia.
  fold (advance b (Z.to_nat n)).
  rewrite (read_exact_returns (advance b (Z.to_nat n)) m)
    by (rewrite remaining_advance; lia).
  unfold ret, advance. simpl.
  rewrite <- drop_drop, take_take_drop, Z2Nat.inj_add by lia.
  f_equal. f_equal. lia.
Qed.

Lemma read_exact_consecutive_witness :
  0 <= 1 /\ 0 <= 2 /\ 1 + 2 <= remaining (mkBytesIO [x01; x02; x03; x04] 1)
  /\ bind (read_exact 1) (fun d1 => bind (read_exact 2) (fun d2 => ret (d1 ++ d2)))
       (mkBytesIO [x01; x02; x03; x04] 1)
     = read_exact (1 + 2) (mkBytesIO [x01; x02; x03; x04] 1).
Proof.
  assert (H : 1 + 2 <= remaining (mkBytesIO [x01; x02; x03; x04] 1))
    by (vm_compute; discriminate).
  split; [lia|]. split; [lia|]. split; [exact H|].
  apply (read_exact_consecutive (mkBytesIO [x01; x02; x03; x04] 1) 1 2); [lia | lia | exact H].
Defined.

(** X18: the text of a packed id shows what was packed: for a block
    height and a transaction index below [2^24] and an output index below
    [2^16], [get_scid_from_int] of [block * 2^40 + txindex * 2^16 + output]
    is the three numbers in decimal, joined by ["x"]. *)
Theorem get_scid_from_int_packed (block txindex output : Z) :
  0 <= block < 2 ^ 24 -> 0 <= txindex < 2 ^ 24 -> 0 <= output < 2 ^ 16 ->
  get_scid_from_int (block * 2 ^ 40 + txindex * 2 ^ 16 + output)
  = str_of_int block +:+ "x" +:+ str_of_int txindex +:+ "x" +:+ str_of_int output.
Proof.
  intros Hb Ht Ho. unfold get_scid_from_int.
  change 0xFFFFFF with (Z.ones 24). change 0xFFFF with (Z.ones 16).
  rewrite !land_ones_mod, !Z.shiftr_div_pow2 by lia.
  set (scid := block * 2 ^ 40 + txindex * 2 ^ 16 + output).
  assert (E40 : scid / 2 ^ 40 = block).
  { symmetry. apply (Z.div_unique scid (2 ^ 40) block (txindex * 2 ^ 16 + output));
      unfold scid; lia. }
  assert (E16 : scid / 2 ^ 16 = block * 2 ^ 24 + txindex).
  { symmetry. apply (Z.div_unique scid (2 ^ 16) (block * 2 ^ 24 + txindex) output);
      unfold scid; lia. }
  assert (M16 : scid mod 2 ^ 16 = output).
  { symmetry. apply (Z.mod_unique scid (2 ^ 16) (block * 2 ^ 24 + txindex) output);
      unfold scid; lia. }
  assert (M24 : (block * 2 ^ 24 + txindex) mod 2 ^ 24 = txindex).
  { symmetry. apply (Z.mod_unique _ (2 ^ 24) block txindex); lia. }
  rewrite E40, E16, M16, M24, (Z.mod_small block) by lia.
  reflexivity.
Qed.

Lemma get_scid_from_int_packed_witness :
  0 <= 700000 < 2 ^ 24 /\ 0 <= 1234 < 2 ^ 24 /\ 0 <= 1 < 2 ^ 16
  /\ get_scid_from_int (700000 * 2 ^ 40 + 1234 * 2 ^ 16 + 1)
     = str_of_int 700000 +:+ "x" +:+ str_of_int 1234 +:+ "x" +:+ str_of_int 1.
Proof.
  split; [lia|]. split; [lia|]. split; [lia|].
  apply (get_scid_from_int_packed 700000 1234 1); lia.
Defined.
